(** * Nile: numeric codecs and the Account abstraction

    A shallow embedding of [nile/utils/__init__.py] and
    [nile/core/account.py], and the properties of the two files that the
    specification states.

    Conventions of the embedding:
    - a Python [int] is a [Z] (arbitrary precision, no wrap-around);
    - a Python [str] is the list of its code points ([list N]);
    - a Python [bytes] object is a [list byte];
    - a raised exception is the [Err] case of [result]; an optional
      argument whose default is [None] is an [option];
    - code that reads or writes the outside world threads that world
      explicitly and returns it next to its result. *)

From stdpp Require Import gmap list.
From Stdlib Require Import ZArith NArith List Ascii Strings.Byte Bool Lia.
From Stdlib Require String.
Import ListNotations String.StringSyntax.
Delimit Scope string_scope with string.

Local Open Scope Z_scope.

(** ** Exceptions and results *)

Inductive exn : Type :=
| TypeError
| ValueError
| OverflowError
| ZeroDivisionError
| UnicodeEncodeError
| UnicodeDecodeError
| KeyError
| StopIteration
| AttributeError
| External (tag : N).

Inductive result (A : Type) : Type :=
| Ok (a : A)
| Err (e : exn).
Arguments Ok {A} a.
Arguments Err {A} e.

Definition bind {A B : Type} (m : result A) (k : A -> result B) : result B :=
  match m with
  | Ok a => k a
  | Err e => Err e
  end.

Declare Scope py_scope.
Delimit Scope py_scope with py.
Notation "'let!' x ':=' m 'in' k" := (bind m (fun x => k))
  (at level 10, x pattern, m at level 100, k at level 200) : py_scope.
Local Open Scope py_scope.

Fixpoint mapM {A B : Type} (f : A -> result B) (l : list A) : result (list B) :=
  match l with
  | [] => Ok []
  | x :: xs => let! y := f x in let! ys := mapM f xs in Ok (y :: ys)
  end.

(** ** Python values *)

Definition pystr : Type := list N.
Definition pybytes : Type := list byte.

(** The code points of an ASCII literal. *)
Definition str (s : String.string) : pystr :=
  List.map (fun c => N_of_ascii c) (String.list_ascii_of_string s).
Arguments str s%_string.

Inductive value : Type :=
| VInt (z : Z)
| VStr (s : pystr).

(** Truth value of an object, as [or], [and] and [if] test it. *)
Definition truthy (v : value) : bool :=
  match v with
  | VInt z => negb (z =? 0)
  | VStr s => match s with [] => false | _ :: _ => true end
  end.

(** ** [str] methods *)

Module Str.

Fixpoint eqb (a b : pystr) : bool :=
  match a, b with
  | [], [] => true
  | x :: a', y :: b' => (x =? y)%N && eqb a' b'
  | _, _ => false
  end.

(** [s.startswith(p)] *)
Fixpoint startswith (p s : pystr) : bool :=
  match p, s with
  | [], _ => true
  | x :: p', y :: s' => (x =? y)%N && startswith p' s'
  | _ :: _, [] => false
  end.

(** [p in s] *)
Fixpoint contains (p s : pystr) : bool :=
  startswith p s ||
  match s with
  | [] => false
  | _ :: s' => contains p s'
  end.

(** [s[:n]] and [s[n:]] for [n >= 0] *)
Definition slice_to (n : nat) (s : pystr) : pystr := firstn n s.
Definition slice_from (n : nat) (s : pystr) : pystr := skipn n s.

(** [n * c] for a one-character string [c] *)
Definition times (n : nat) (c : N) : pystr := repeat c n.

End Str.

(** ** [int(...)] on text

    [int(s)] and [int(s, 16)] follow CPython's [PyLong_FromString]: blanks
    are skipped on both sides, one sign is allowed, base 16 accepts a
    [0x] or [0X] prefix, digits may be separated by single underscores,
    and anything else raises [ValueError].  Only ASCII digits and blanks
    are recognised here. *)

Module PyInt.

Definition is_space (c : N) : bool :=
  ((9 <=? c) && (c <=? 13) || (c =? 32))%N.

Definition underscore : N := 95.

(** Value of a character as a digit; 36 and above means "not a digit". *)
Definition digit_value (c : N) : N :=
  if ((48 <=? c) && (c <=? 57))%N then c - 48
  else if ((97 <=? c) && (c <=? 122))%N then c - 87
  else if ((65 <=? c) && (c <=? 90))%N then c - 55
  else 37.

Fixpoint skip_spaces (s : pystr) : pystr :=
  match s with
  | c :: s' => if is_space c then skip_spaces s' else s
  | [] => []
  end.

(** Scans digits and underscores; [prev_us] tells whether the previous
    character was an underscore.  Returns the value read, whether any
    character was consumed, and the rest; [None] on a doubled or
    trailing underscore. *)
Fixpoint scan (base : N) (acc : N) (any prev_us : bool) (s : pystr)
  : option (N * bool * pystr) :=
  match s with
  | c :: s' =>
      if (c =? underscore)%N then
        if prev_us then None else scan base acc true true s'
      else if (digit_value c <? base)%N then
        scan base (acc * base + digit_value c)%N true false s'
      else if prev_us then None else Some (acc, any, s)
  | [] => if prev_us then None else Some (acc, any, [])
  end.

Definition strip_sign (s : pystr) : bool * pystr :=
  match s with
  | c :: s' =>
      if (c =? 43)%N then (false, s')
      else if (c =? 45)%N then (true, s')
      else (false, s)
  | [] => (false, [])
  end.

Definition strip_prefix (base : N) (s : pystr) : pystr :=
  match s with
  | z :: x :: s' =>
      if ((base =? 16) && (z =? 48) && ((x =? 120) || (x =? 88)))%N then
        match s' with
        | u :: s'' => if (u =? underscore)%N then s'' else s'
        | [] => s'
        end
      else s
  | _ => s
  end.

Definition of_str (base : N) (s : pystr) : result Z :=
  let '(neg, s1) := strip_sign (skip_spaces s) in
  let s2 := strip_prefix base s1 in
  match s2 with
  | c :: _ => if (c =? underscore)%N then Err ValueError else
      match scan base 0 false false s2 with
      | Some (n, true, rest) =>
          match skip_spaces rest with
          | [] => Ok (if neg then - Z.of_N n else Z.of_N n)
          | _ :: _ => Err ValueError
          end
      | _ => Err ValueError
      end
  | [] => Err ValueError
  end.

(** [int(x)] *)
Definition int (x : value) : result Z :=
  match x with
  | VInt z => Ok z
  | VStr s => of_str 10 s
  end.

(** [int(x, 16)]: an explicit base requires text. *)
Definition int16 (x : value) : result Z :=
  match x with
  | VInt _ => Err TypeError
  | VStr s => of_str 16 s
  end.

End PyInt.

Example int_hex_1a : PyInt.int16 (VStr (str "0x1a")) = Ok 26.
Proof. reflexivity. Qed.

Example int_dec_26 : PyInt.int (VStr (str " -2_6 ")) = Ok (-26).
Proof. reflexivity. Qed.

Example int_dec_rejects_hex : PyInt.int (VStr (str "0x1")) = Err ValueError.
Proof. reflexivity. Qed.

(** ** [bytes], [int.from_bytes], [int.to_bytes], [bytes.decode] *)

Module Bytes.

Definition byte_of_N (n : N) : byte :=
  match Byte.of_N (n mod 256) with
  | Some b => b
  | None => x00
  end.

(** [bytes(text, "ascii")] *)
Definition encode_ascii (s : pystr) : result pybytes :=
  mapM (fun c => if (c <? 128)%N then Ok (byte_of_N c)
                 else Err UnicodeEncodeError) s.

(** [int.from_bytes(b, "big")] *)
Definition from_bytes_big (b : pybytes) : Z :=
  fold_left (fun acc x => acc * 256 + Z.of_N (Byte.to_N x)) b 0.

(** The [n] low-order bytes of [z], most significant first. *)
Fixpoint be_bytes (n : nat) (z : Z) : pybytes :=
  match n with
  | O => []
  | S k => be_bytes k (z / 256) ++ [byte_of_N (Z.to_N (z mod 256))]
  end.

(** [z.to_bytes(n, "big")]: unsigned, so a negative or too large [z]
    raises [OverflowError]. *)
Definition to_bytes_big (n : nat) (z : Z) : result pybytes :=
  if z <? 0 then Err OverflowError
  else if 256 ^ Z.of_nat n <=? z then Err OverflowError
  else Ok (be_bytes n z).

Definition between (lo hi b : N) : bool := ((lo <=? b) && (b <=? hi))%N.

(** Strict UTF-8: shortest forms only, no surrogates, nothing above
    U+10FFFF. *)
Fixpoint utf8 (bs : list N) : option pystr :=
  match bs with
  | [] => Some []
  | b0 :: r0 =>
      if (b0 <? 0x80)%N then option_map (cons b0) (utf8 r0)
      else if between 0xC2 0xDF b0 then
        match r0 with
        | b1 :: r1 =>
            if between 0x80 0xBF b1
            then option_map (cons ((b0 - 0xC0) * 64 + (b1 - 0x80))%N) (utf8 r1)
            else None
        | _ => None
        end
      else if between 0xE0 0xEF b0 then
        match r0 with
        | b1 :: b2 :: r2 =>
            let lo := if (b0 =? 0xE0)%N then 0xA0%N else 0x80%N in
            let hi := if (b0 =? 0xED)%N then 0x9F%N else 0xBF%N in
            if between lo hi b1 && between 0x80 0xBF b2
            then option_map
                   (cons ((b0 - 0xE0) * 4096 + (b1 - 0x80) * 64 + (b2 - 0x80))%N)
                   (utf8 r2)
            else None
        | _ => None
        end
      else if between 0xF0 0xF4 b0 then
        match r0 with
        | b1 :: b2 :: b3 :: r3 =>
            let lo := if (b0 =? 0xF0)%N then 0x90%N else 0x80%N in
            let hi := if (b0 =? 0xF4)%N then 0x8F%N else 0xBF%N in
            if between lo hi b1 && between 0x80 0xBF b2 && between 0x80 0xBF b3
            then option_map
                   (cons ((b0 - 0xF0) * 262144 + (b1 - 0x80) * 4096
                          + (b2 - 0x80) * 64 + (b3 - 0x80))%N)
                   (utf8 r3)
            else None
        | _ => None
        end
      else None
  end.

(** [b.decode()]: the default codec is UTF-8 with strict errors. *)
Definition decode (b : pybytes) : result pystr :=
  match utf8 (List.map Byte.to_N b) with
  | Some s => Ok s
  | None => Err UnicodeDecodeError
  end.

End Bytes.

Example decode_euro :
  Bytes.decode [xe2; x82; xac] = Ok [0x20AC%N]
  /\ Bytes.decode [xf0; x9f; x98; x80] = Ok [0x1F600%N]
  /\ Bytes.decode [xc0; x80] = Err UnicodeDecodeError
  /\ Bytes.decode [xed; xa0; x80] = Err UnicodeDecodeError
  /\ Bytes.decode [xf4; x90; x80; x80] = Err UnicodeDecodeError.
Proof. repeat split. Qed.

(** ** [hex(n)] and [str(n)] *)

Module Show.

Definition digit_char (d : N) : N :=
  if (d <? 10)%N then (48 + d)%N else (87 + d)%N.

(** Digits of [n] in [base], most significant first, in front of [acc]. *)
Fixpoint digits_aux (base : N) (fuel : nat) (n : N) (acc : pystr) : pystr :=
  match fuel with
  | O => acc
  | S f =>
      let acc' := digit_char (n mod base) :: acc in
      if (n / base =? 0)%N then acc' else digits_aux base f (n / base) acc'
  end.

Definition digits (base n : N) : pystr :=
  digits_aux base (S (N.to_nat (N.log2 n))) n [].

Definition signed (prefix : pystr) (base : N) (z : Z) : pystr :=
  (if z <? 0 then [45%N] else []) ++ prefix ++ digits base (Z.abs_N z).

(** [hex(z)] *)
Definition hex (z : Z) : pystr := signed [48; 120]%N 16 z.

(** [str(z)] *)
Definition dec (z : Z) : pystr := signed [] 10 z.

End Show.

Example hex_26 : Show.hex 26 = str "0x1a" /\ Show.hex (-255) = str "-0xff"
                 /\ Show.hex 0 = str "0x0" /\ Show.dec (-1203) = str "-1203".
Proof. repeat split. Qed.

(** ** [int / int] and [math.trunc]

    True division of two integers yields the binary64 number nearest to
    the exact quotient (ties to even); it is represented here exactly, as
    a sign, an integer significand below [2^53 + 1] and a binary exponent. *)

Module Float.

Record t : Type := mk { neg : bool; man : Z; exp : Z }.

(** Nearest integer to [num / den], ties to even ([den > 0]). *)
Definition round_half_even (num den : Z) : Z :=
  let q := num / den in
  let r := num mod den in
  if 2 * r <? den then q
  else if den <? 2 * r then q + 1
  else if Z.even q then q else q + 1.

(** [floor (log2 (x / y))] for positive [x] and [y]. *)
Definition quotient_log2 (x y : Z) : Z :=
  let d := Z.log2 x - Z.log2 y in
  let fits := if 0 <=? d then y * 2 ^ d <=? x else y <=? x * 2 ^ (- d) in
  if fits then d else d - 1.

(** [a / b] *)
Definition truediv (a b : Z) : result t :=
  if b =? 0 then Err ZeroDivisionError
  else if a =? 0 then Ok (mk false 0 0)
  else
    let x := Z.abs a in
    let y := Z.abs b in
    let e := Z.max (quotient_log2 x y - 52) (-1074) in
    let m := round_half_even (x * 2 ^ Z.max 0 (- e)) (y * 2 ^ Z.max 0 e) in
    if (0 <=? e) && (2 ^ 1024 <=? m * 2 ^ e) then Err OverflowError
    else Ok (mk (negb (Z.sgn a =? Z.sgn b)) m e).

(** [math.trunc(f)]: rounds towards zero. *)
Definition trunc (f : t) : Z :=
  let mag := if 0 <=? exp f then man f * 2 ^ exp f
             else man f / 2 ^ (- exp f) in
  if neg f then - mag else mag.

End Float.

Example truediv_small :
  (let! f := Float.truediv 7 2 in Ok (Float.trunc f)) = Ok 3
  /\ (let! f := Float.truediv (-7) 2 in Ok (Float.trunc f)) = Ok (-3)
  /\ (let! f := Float.truediv 1 3 in Ok f)
     = Ok (Float.mk false 6004799503160661 (-54))
  /\ Float.truediv 1 0 = Err ZeroDivisionError.
Proof. repeat split. Qed.

(** * [nile/utils/__init__.py] *)

Definition uint : Type := (Z * Z)%type.

Definition MAX_UINT256 : uint := (2 ^ 128 - 1, 2 ^ 128 - 1).
Definition INVALID_UINT256 : uint := (fst MAX_UINT256 + 1, snd MAX_UINT256).
Definition ZERO_ADDRESS : Z := 0.

(** [str_to_felt(text)]; [bytes(x, "ascii")] demands text. *)
Definition str_to_felt (text : value) : result Z :=
  match text with
  | VInt _ => Err TypeError
  | VStr s =>
      let! b_text := Bytes.encode_ascii s in
      Ok (Bytes.from_bytes_big b_text)
  end.

(** [felt_to_str(felt)]; the membership test ["0x" in felt] demands text. *)
Definition felt_to_str (felt : value) : result pystr :=
  match felt with
  | VInt _ => Err TypeError
  | VStr s =>
      let! felt := (if Str.contains (str "0x") s then PyInt.int16 felt
                    else PyInt.int felt) in
      let! b_felt := Bytes.to_bytes_big 31 felt in
      Bytes.decode b_felt
  end.

(** [to_uint(a)] *)
Definition to_uint (a : value) : result uint :=
  let! a := PyInt.int a in
  Ok (Z.land a (Z.shiftl 1 128 - 1), Z.shiftr a 128).

(** [from_uint(uint)] *)
Definition from_uint (u : uint) : Z :=
  fst u + Z.shiftl (snd u) 128.

(** [add_uint(a, b)] *)
Definition add_uint (a b : uint) : result uint :=
  let a := from_uint a in
  let b := from_uint b in
  let c := a + b in
  to_uint (VInt c).

(** [sub_uint(a, b)] *)
Definition sub_uint (a b : uint) : result uint :=
  let a := from_uint a in
  let b := from_uint b in
  let c := a - b in
  to_uint (VInt c).

(** [mul_uint(a, b)] *)
Definition mul_uint (a b : uint) : result uint :=
  let a := from_uint a in
  let b := from_uint b in
  let c := a * b in
  to_uint (VInt c).

(** [div_rem_uint(a, b)]: the quotient goes through [a / b], a float. *)
Definition div_rem_uint (a b : uint) : result (uint * uint) :=
  let a := from_uint a in
  let b := from_uint b in
  let! f := Float.truediv a b in
  let c := Float.trunc f in
  let m := a mod b in
  let! q := to_uint (VInt c) in
  let! r := to_uint (VInt m) in
  Ok (q, r).

(** [normalize_number(number)] *)
Definition normalize_number (number : value) : result Z :=
  match number with
  | VStr s =>
      if Str.startswith (str "0x") s then PyInt.int16 number
      else PyInt.int number
  | VInt _ => PyInt.int number
  end.

(** [_pad_hex_to_64(hexadecimal)]: there is no [return] for a text of 66
    characters or more, so the call yields [None] there. *)
Definition _pad_hex_to_64 (hexadecimal : pystr) : option pystr :=
  if (length hexadecimal <? 66)%nat then
    let missing_zeros := (66 - length hexadecimal)%nat in
    Some (Str.slice_to 2 hexadecimal
          ++ Str.times missing_zeros 48%N
          ++ Str.slice_from 2 hexadecimal)
  else None.

(** [hex_address(number)] *)
Definition hex_address (number : value) : result (option pystr) :=
  match number with
  | VStr s =>
      if Str.startswith (str "0x") s then Ok (_pad_hex_to_64 s)
      else let! n := PyInt.int number in Ok (_pad_hex_to_64 (Show.hex n))
  | VInt _ =>
      let! n := PyInt.int number in Ok (_pad_hex_to_64 (Show.hex n))
  end.

Example normalize_number_examples :
  normalize_number (VStr (str "0x1a")) = Ok 26
  /\ normalize_number (VStr (str "26")) = Ok 26
  /\ normalize_number (VInt 26) = Ok 26.
Proof. repeat split. Qed.

Example str_to_felt_hello : str_to_felt (VStr (str "hello")) = Ok 448378203247.
Proof. reflexivity. Qed.

Example felt_to_str_hello :
  felt_to_str (VStr (str "448378203247"))
  = Ok (repeat 0%N 26 ++ str "hello").
Proof. reflexivity. Qed.

Example hex_address_26 :
  hex_address (VInt 26)
  = Ok (Some (str "0x000000000000000000000000000000000000000000000000000000000000001a")).
Proof. reflexivity. Qed.

Example div_rem_small :
  div_rem_uint (7, 0) (2, 0) = Ok ((3, 0), (1, 0)).
Proof. reflexivity. Qed.

(** * Effects: a world threaded through the calls *)

Definition M (S A : Type) : Type := S -> result A * S.

Definition ret {S A : Type} (a : A) : M S A := fun s => (Ok a, s).

Definition lift {S A : Type} (r : result A) : M S A := fun s => (r, s).

Definition gets {S A : Type} (f : S -> A) : M S A := fun s => (Ok (f s), s).

Definition bindM {S A B : Type} (m : M S A) (k : A -> M S B) : M S B :=
  fun s =>
    match m s with
    | (Ok a, s') => k a s'
    | (Err e, s') => (Err e, s')
    end.

Notation "'do!' x ':=' m 'in' k" := (bindM m (fun x => k))
  (at level 10, x pattern, m at level 100, k at level 200) : py_scope.

(** Reading an attribute that was never assigned raises [AttributeError]. *)
Definition attr {S A : Type} (field : option A) : M S A :=
  match field with
  | Some a => ret a
  | None => lift (Err AttributeError)
  end.

(** [d[key]] on a [dict] *)
Definition getitem (d : gmap pystr value) (key : pystr) : result value :=
  match d !! key with
  | Some v => Ok v
  | None => Err KeyError
  end.

(** [next(it)] on a finite iterator, given as the list of what it yields. *)
Definition next {A : Type} (it : list A) : result A :=
  match it with
  | x :: _ => Ok x
  | [] => Err StopIteration
  end.

(** [os.environ[key]]: the mapping only accepts text keys. *)
Definition environ_getitem (environ : gmap pystr pystr) (key : value)
  : result pystr :=
  match key with
  | VInt _ => Err TypeError
  | VStr k =>
      match environ !! k with
      | Some v => Ok v
      | None => Err KeyError
      end
  end.

(** [f"{v}"] *)
Definition format (v : value) : pystr :=
  match v with
  | VStr s => s
  | VInt z => Show.dec z
  end.

(** [a or b], with [None] for an absent [a]. *)
Definition py_or (a : option value) (b : value) : value :=
  match a with
  | Some v => if truthy v then v else b
  | None => b
  end.


(** * Properties of the uint256 codec *)

Definition fits128 (x : Z) : Prop := 0 <= x < 2 ^ 128.

Definition is_uint256 (u : uint) : Prop := fits128 (fst u) /\ fits128 (snd u).

Lemma to_uint_int (a : Z) :
  to_uint (VInt a) = Ok (a mod 2 ^ 128, a / 2 ^ 128).
Proof.
  unfold to_uint; cbn [PyInt.int bind].
  rewrite Z.shiftr_div_pow2 by lia.
  replace (Z.shiftl 1 128 - 1) with (Z.ones 128) by reflexivity.
  now rewrite Z.land_ones by lia.
Qed.

Lemma from_uint_split (a : Z) : from_uint (a mod 2 ^ 128, a / 2 ^ 128) = a.
Proof.
  unfold from_uint; cbn [fst snd].
  rewrite Z.shiftl_mul_pow2 by lia.
  pose proof (Z.div_mod a (2 ^ 128)). lia.
Qed.

Lemma low_limb_fits (a : Z) : fits128 (a mod 2 ^ 128).
Proof. unfold fits128. apply Z.mod_pos_bound. lia. Qed.

Lemma high_limb_fits (a : Z) : fits128 (a / 2 ^ 128) <-> 0 <= a < 2 ^ 256.
Proof.
  unfold fits128.
  change (2 ^ 256) with (2 ^ 128 * 2 ^ 128).
  pose proof (Z.div_mod a (2 ^ 128)).
  pose proof (Z.mod_pos_bound a (2 ^ 128)).
  split; intros; nia.
Qed.

(** C8.  For every integer [a] with [0 <= a < 2^256], recomposing the
    limbs that [to_uint] returns gives [a] back:
    [from_uint(to_uint(a)) == a]. *)
Theorem from_uint_to_uint (a : Z) :
  0 <= a < 2 ^ 256 ->
  (let! u := to_uint (VInt a) in Ok (from_uint u)) = Ok a.
Proof.
  intros _. rewrite to_uint_int. cbn [bind].
  now rewrite from_uint_split.
Qed.

Lemma from_uint_to_uint_witness :
  0 <= 2 ^ 200 + 5 < 2 ^ 256
  /\ (let! u := to_uint (VInt (2 ^ 200 + 5)) in Ok (from_uint u))
     = Ok (2 ^ 200 + 5).
Proof.
  split; [lia | apply (from_uint_to_uint (2 ^ 200 + 5)); lia].
Defined.

(** What [to_uint(c)] is for an exact integer result [c]: both limbs are
    those of floor division by [2^128], nothing is reduced modulo
    [2^256]. *)
Definition recomposes (r : result uint) (c : Z) : Prop :=
  r = to_uint (VInt c)
  /\ exists u,
       r = Ok u
       /\ from_uint u = c
       /\ fits128 (fst u)
       /\ (fits128 (snd u) <-> 0 <= c < 2 ^ 256).

Lemma to_uint_recomposes (c : Z) : recomposes (to_uint (VInt c)) c.
Proof.
  split; [reflexivity |].
  exists (c mod 2 ^ 128, c / 2 ^ 128).
  split; [apply to_uint_int |].
  split; [apply from_uint_split |].
  cbn [fst snd]. split; [apply low_limb_fits | apply high_limb_fits].
Qed.

(** C4, as the code has it.  [add_uint], [sub_uint] and [mul_uint] return
    exactly [to_uint] of the integer sum, difference and product of the
    recomposed operands.  The low limb of the result always fits in 128
    bits; the high limb is the exact quotient by [2^128], so it fits in
    128 bits precisely when the integer result lies in [[0, 2^256)], and
    recomposing the result gives the integer result itself: nothing
    wraps. *)
Theorem uint_arith_exact (a b : uint) :
  recomposes (add_uint a b) (from_uint a + from_uint b)
  /\ recomposes (sub_uint a b) (from_uint a - from_uint b)
  /\ recomposes (mul_uint a b) (from_uint a * from_uint b).
Proof.
  repeat split; apply to_uint_recomposes.
Qed.

(** C4 as stated fails: the sum of the largest uint256 and one has a high
    limb of [2^128], and [0 - 1] has a high limb of [-1]. *)
Lemma uint_arith_invariant_counterexample :
  is_uint256 MAX_UINT256 /\ is_uint256 (1, 0) /\ is_uint256 (0, 0)
  /\ add_uint MAX_UINT256 (1, 0) = Ok (0, 2 ^ 128)
  /\ ~ is_uint256 (0, 2 ^ 128)
  /\ sub_uint (0, 0) (1, 0) = Ok (2 ^ 128 - 1, -1)
  /\ ~ is_uint256 (2 ^ 128 - 1, -1).
Proof.
  unfold is_uint256, fits128, MAX_UINT256; cbn [fst snd].
  repeat split; try lia; reflexivity.
Qed.

(** * [div_rem_uint] *)

Example truediv_rounds :
  (let! f := Float.truediv (2 ^ 53 + 1) 1 in Ok (Float.trunc f)) = Ok (2 ^ 53)
  /\ (let! f := Float.truediv (3 * 10 ^ 30 - 1) (10 ^ 30) in Ok (Float.trunc f))
     = Ok 3
  /\ (let! f := Float.truediv (2 ^ 60 - 1) (2 ^ 60) in Ok (Float.trunc f)) = Ok 1.
Proof. repeat split. Qed.

(** C2 at a failing input.  With [a = 2^53 + 1] and [b = 1] the quotient
    comes back as [2^53] and the remainder as [0], so
    [quotient * b + remainder] is not [a]. *)
Theorem div_rem_uint_inexact :
  div_rem_uint (2 ^ 53 + 1, 0) (1, 0) = Ok ((2 ^ 53, 0), (0, 0))
  /\ from_uint (2 ^ 53, 0) * from_uint (1, 0) + from_uint (0, 0)
     <> from_uint (2 ^ 53 + 1, 0).
Proof.
  split; [reflexivity | discriminate].
Qed.

(** X3.  [div_rem_uint(a, 0)] raises [ZeroDivisionError]. *)
Lemma div_rem_uint_by_zero (a b : uint) :
  from_uint b = 0 -> div_rem_uint a b = Err ZeroDivisionError.
Proof.
  intros Hb. unfold div_rem_uint, Float.truediv. now rewrite Hb.
Qed.

(** * Properties of the felt and text codecs *)

Section BytesFacts.
Import Bytes.

Lemma byte_of_to_N (b : byte) : byte_of_N (Byte.to_N b) = b.
Proof.
  unfold byte_of_N.
  pose proof (Byte.to_N_bounded b).
  rewrite N.mod_small by lia.
  now rewrite Byte.of_to_N.
Qed.

Lemma to_N_byte_of_N (n : N) : (n < 256)%N -> Byte.to_N (byte_of_N n) = n.
Proof.
  intros Hn. unfold byte_of_N. rewrite N.mod_small by lia.
  destruct (Byte.of_N n) as [b|] eqn:E.
  - now apply Byte.to_of_N.
  - apply Byte.of_N_None_iff in E. lia.
Qed.

Lemma from_bytes_big_snoc (bs : pybytes) (b : byte) :
  from_bytes_big (bs ++ [b])
  = from_bytes_big bs * 256 + Z.of_N (Byte.to_N b).
Proof. unfold from_bytes_big. now rewrite fold_left_app. Qed.

Lemma from_bytes_big_bound (bs : pybytes) :
  0 <= from_bytes_big bs < 256 ^ Z.of_nat (length bs).
Proof.
  induction bs as [|b bs IH] using rev_ind.
  - cbn. lia.
  - rewrite from_bytes_big_snoc, length_app, Nat2Z.inj_add.
    cbn [length]. rewrite Z.pow_add_r by lia.
    pose proof (Byte.to_N_bounded b). lia.
Qed.

Lemma be_bytes_zero (n : nat) : be_bytes n 0 = repeat x00 n.
Proof.
  induction n as [|n IH]; [reflexivity |].
  cbn [be_bytes]. change (0 / 256) with 0. rewrite IH.
  change (byte_of_N (Z.to_N (0 mod 256))) with x00.
  symmetry. apply repeat_cons.
Qed.

(** Writing back the number read from [bs] on [n] bytes pads [bs] with
    zero bytes on the left. *)
Lemma be_bytes_from_bytes_big (bs : pybytes) :
  forall n : nat,
    (length bs <= n)%nat ->
    be_bytes n (from_bytes_big bs) = repeat x00 (n - length bs) ++ bs.
Proof.
  induction bs as [|b bs IH] using rev_ind; intros n Hn.
  - cbn [length]. rewrite Nat.sub_0_r, app_nil_r. apply be_bytes_zero.
  - rewrite length_app in *. cbn [length] in *.
    destruct n as [|n]; [lia |].
    rewrite from_bytes_big_snoc. cbn [be_bytes].
    pose proof (Byte.to_N_bounded b) as Hb.
    replace ((from_bytes_big bs * 256 + Z.of_N (Byte.to_N b)) / 256)
      with (from_bytes_big bs)
      by (apply Z.div_unique with (Z.of_N (Byte.to_N b)); lia).
    replace ((from_bytes_big bs * 256 + Z.of_N (Byte.to_N b)) mod 256)
      with (Z.of_N (Byte.to_N b))
      by (apply Z.mod_unique with (from_bytes_big bs); lia).
    rewrite N2Z.id, byte_of_to_N, IH by lia.
    rewrite <- app_assoc. do 2 f_equal. lia.
Qed.

Definition is_ascii (s : pystr) : Prop := Forall (fun c => (c < 128)%N) s.

Lemma encode_ascii_ok (s : pystr) (bs : pybytes) :
  encode_ascii s = Ok bs ->
  is_ascii s /\ List.map Byte.to_N bs = s /\ length bs = length s.
Proof.
  unfold encode_ascii, is_ascii. revert bs.
  induction s as [|c s IH]; intros bs H; cbn [mapM] in H.
  - injection H as <-. repeat split. constructor.
  - destruct (c <? 128)%N eqn:Hc; cbn [bind] in H; [|discriminate].
    apply N.ltb_lt in Hc.
    destruct (mapM _ s) as [bs'|] eqn:E; cbn [bind] in H; [|discriminate].
    injection H as <-.
    destruct (IH bs' eq_refl) as (Ha & Hm & Hl).
    repeat split.
    + now constructor.
    + cbn [List.map]. rewrite Hm, to_N_byte_of_N by lia. reflexivity.
    + cbn [length]. now rewrite Hl.
Qed.

Lemma encode_ascii_total (s : pystr) :
  is_ascii s -> exists bs, encode_ascii s = Ok bs.
Proof.
  unfold encode_ascii. induction 1 as [|c s Hc _ [bs IH]]; cbn [mapM].
  - now exists [].
  - apply N.ltb_lt in Hc. rewrite Hc, IH. cbn [bind]. eauto.
Qed.

Lemma utf8_ascii (l : list N) : is_ascii l -> utf8 l = Some l.
Proof.
  induction 1 as [|c l Hc _ IH]; [reflexivity |].
  cbn [utf8].
  replace (c <? 128)%N with true by (symmetry; apply N.ltb_lt; lia).
  now rewrite IH.
Qed.

Lemma decode_padded (k : nat) (bs : pybytes) :
  is_ascii (List.map Byte.to_N bs) ->
  decode (repeat x00 k ++ bs)
  = Ok (repeat 0%N k ++ List.map Byte.to_N bs).
Proof.
  intros Ha. unfold decode.
  rewrite List.map_app, map_repeat. cbn [Byte.to_N].
  rewrite utf8_ascii; [reflexivity |].
  apply Forall_app. split; [|exact Ha].
  apply Forall_forall. intros x Hx. apply repeat_spec in Hx. subst x. lia.
Qed.

End BytesFacts.

(** * [int] reads back what [hex] and [str] print *)

Ltac case_tests :=
  repeat match goal with
    | |- context [(?a <? ?b)%N] => destruct (N.ltb_spec a b)
    | |- context [(?a <=? ?b)%N] => destruct (N.leb_spec a b)
    | |- context [(?a =? ?b)%N] => destruct (N.eqb_spec a b)
    end;
  cbn [andb orb negb]; try first [lia | reflexivity].

Section ShowFacts.
Import PyInt Show.

Lemma digit_value_char (d : N) :
  (d < 36)%N -> digit_value (digit_char d) = d.
Proof. intros Hd. unfold digit_value, digit_char. case_tests. Qed.

Lemma digit_char_range (d : N) :
  (d < 36)%N ->
  (48 <= digit_char d <= 57 \/ 97 <= digit_char d <= 122)%N.
Proof. intros Hd. unfold digit_char. case_tests. Qed.

Variable base : N.
Hypothesis base_range : (2 <= base <= 36)%N.

Lemma scan_digit (acc d : N) (any : bool) (s : pystr) :
  (d < base)%N ->
  scan base acc any false (digit_char d :: s)
  = scan base (acc * base + d) true false s.
Proof.
  intros Hd. cbn [scan].
  assert (H36 : (d < 36)%N) by lia.
  pose proof (digit_char_range d H36) as Hr.
  rewrite (digit_value_char d H36).
  unfold underscore. case_tests.
Qed.

(** Reading the digits that [digits_aux] printed gives the number. *)
Lemma scan_digits_aux (fuel : nat) :
  forall (n : N) (acc : pystr) (any : bool),
    (n < base ^ N.of_nat (S fuel))%N ->
    scan base 0 any false (digits_aux base (S fuel) n acc)
    = scan base n true false acc.
Proof.
  induction fuel as [|fuel IH]; intros n acc any Hn.
  - cbn [digits_aux]. change (N.of_nat 1) with 1%N in Hn.
    rewrite N.pow_1_r in Hn.
    rewrite N.div_small, N.mod_small by lia. rewrite N.eqb_refl.
    rewrite scan_digit by lia. f_equal.
  - remember (S fuel) as f eqn:Hf.
    cbn [digits_aux].
    assert (Hmod : (n mod base < base)%N) by (apply N.mod_lt; lia).
    pose proof (N.div_mod n base ltac:(lia)) as Hdm.
    destruct (N.eqb_spec (n / base) 0) as [Hz|Hz].
    + rewrite scan_digit by lia. f_equal. lia.
    + subst f. rewrite IH.
      * rewrite scan_digit by lia. f_equal. lia.
      * apply N.Div0.div_lt_upper_bound.
        rewrite <- N.pow_succ_r'. now rewrite <- Nat2N.inj_succ.
Qed.

Lemma digits_aux_head (fuel : nat) :
  forall (n : N) (acc : pystr),
    exists d tl, (d < base)%N
                 /\ digits_aux base (S fuel) n acc = digit_char d :: tl.
Proof.
  induction fuel as [|fuel IH]; intros n acc.
  - cbn [digits_aux]. exists (n mod base)%N, acc.
    split; [apply N.mod_lt; lia |]. now destruct (_ =? _)%N.
  - remember (S fuel) as f eqn:Hf. cbn [digits_aux].
    destruct (n / base =? 0)%N.
    + exists (n mod base)%N, acc. split; [apply N.mod_lt; lia | reflexivity].
    + subst f. apply IH.
Qed.

Lemma digits_aux_chars (P : N -> Prop) (fuel : nat) :
  (forall d, (d < base)%N -> P (digit_char d)) ->
  forall (n : N) (acc : pystr),
    Forall P acc -> Forall P (digits_aux base fuel n acc).
Proof.
  intros HP. induction fuel as [|fuel IH]; intros n acc Hacc; [exact Hacc |].
  cbn [digits_aux].
  assert (Forall P (digit_char (n mod base) :: acc)).
  { constructor; [apply HP, N.mod_lt; lia | exact Hacc]. }
  destruct (n / base =? 0)%N; [assumption | now apply IH].
Qed.

(** A number below [base ^ k] prints on at most [k] digits. *)
Lemma digits_aux_length (fuel : nat) :
  forall (n : N) (acc : pystr) (k : nat),
    (n < base ^ N.of_nat (S k))%N ->
    (length (digits_aux base (S fuel) n acc) <= S k + length acc)%nat.
Proof.
  induction fuel as [|fuel IH]; intros n acc k Hn.
  - cbn [digits_aux]. destruct (_ =? _)%N; cbn [length]; lia.
  - remember (S fuel) as f eqn:Hf. cbn [digits_aux].
    destruct (N.eqb_spec (n / base) 0) as [Hz|Hz]; [cbn [length]; lia |].
    subst f. destruct k as [|k].
    + exfalso. apply Hz. apply N.div_small.
      change (N.of_nat 1) with 1%N in Hn. now rewrite N.pow_1_r in Hn.
    + etransitivity; [apply (IH _ _ k) |].
      * apply N.Div0.div_lt_upper_bound.
        rewrite <- N.pow_succ_r'. now rewrite <- Nat2N.inj_succ.
      * cbn [length]. lia.
Qed.

Lemma log2_fuel (n : N) : (n < base ^ N.of_nat (S (N.to_nat (N.log2 n))))%N.
Proof.
  rewrite Nat2N.inj_succ, N2Nat.id.
  apply N.lt_le_trans with (2 ^ N.succ (N.log2 n))%N.
  - destruct n as [|p]; [reflexivity |].
    apply N.log2_spec. lia.
  - apply N.pow_le_mono_l. lia.
Qed.

Lemma scan_digits (n : N) (any : bool) :
  scan base 0 any false (digits base n) = Some (n, true, []).
Proof.
  unfold digits. rewrite scan_digits_aux by apply log2_fuel. reflexivity.
Qed.

Lemma digits_head (n : N) :
  exists d tl, (d < base)%N /\ digits base n = digit_char d :: tl.
Proof. apply digits_aux_head. Qed.

Lemma digits_length (n : N) (k : nat) :
  (n < base ^ N.of_nat (S k))%N -> (length (digits base n) <= S k)%nat.
Proof.
  intros Hn. unfold digits.
  pose proof (digits_aux_length (N.to_nat (N.log2 n)) n [] k Hn) as H.
  cbn [length] in H. lia.
Qed.

End ShowFacts.

Section ReadBack.
Import PyInt Show.

Lemma of_str_body (base : N) (body : pystr) (h c : N) (tl tl2 : pystr) (n : N) :
  body = h :: tl ->
  is_space h = false -> h <> 43%N -> h <> 45%N ->
  strip_prefix base body = c :: tl2 ->
  c <> underscore ->
  scan base 0 false false (c :: tl2) = Some (n, true, []) ->
  of_str base body = Ok (Z.of_N n)
  /\ of_str base (45%N :: body) = Ok (- Z.of_N n).
Proof.
  intros -> Hsp H43 H45 Hpre Hc Hscan.
  apply N.eqb_neq in H43, H45, Hc.
  split; unfold of_str; cbn [skip_spaces strip_sign].
  - rewrite Hsp. cbn [strip_sign]. rewrite H43, H45, Hpre, Hc, Hscan.
    reflexivity.
  - change (is_space 45) with false. cbn [strip_sign].
    change (45 =? 43)%N with false. change (45 =? 45)%N with true.
    cbn match. rewrite Hpre, Hc, Hscan. reflexivity.
Qed.

Lemma digit_head_plain (base d : N) :
  (d < base)%N -> (base <= 36)%N ->
  is_space (digit_char d) = false
  /\ digit_char d <> 43%N /\ digit_char d <> 45%N
  /\ digit_char d <> underscore.
Proof.
  intros Hd Hb.
  destruct (digit_char_range d ltac:(lia)) as [H|H];
    unfold is_space, underscore; repeat split; case_tests.
Qed.

Lemma of_str_signed_dec (z : Z) : of_str 10 (dec z) = Ok z.
Proof.
  unfold dec, signed. cbn [app].
  destruct (digits_head 10 ltac:(lia) (Z.abs_N z)) as (d & tl & Hd & E).
  destruct (digit_head_plain 10 d Hd ltac:(lia)) as (Hs & H43 & H45 & Hu).
  assert (Hpre : strip_prefix 10 (digits 10 (Z.abs_N z)) = digit_char d :: tl).
  { rewrite E. unfold strip_prefix. destruct tl; reflexivity. }
  pose proof (scan_digits 10 ltac:(lia) (Z.abs_N z) false) as Hscan.
  rewrite E in Hscan.
  destruct (of_str_body 10 _ _ _ _ _ _ E Hs H43 H45 Hpre Hu Hscan) as [Hpos Hneg].
  destruct (Z.ltb_spec z 0); cbn [app].
  - rewrite Hneg. f_equal. rewrite N2Z.inj_abs_N. lia.
  - rewrite Hpos. f_equal. rewrite N2Z.inj_abs_N. lia.
Qed.

Lemma scan_zeros (base : N) (k : nat) (s : pystr) (any : bool) :
  (2 <= base <= 36)%N ->
  scan base 0 any false (repeat 48%N k ++ s)
  = scan base 0 (any || negb (Nat.eqb k 0)) false s.
Proof.
  intros Hb. revert any. induction k as [|k IH]; intros any.
  - cbn. now rewrite orb_false_r.
  - cbn [repeat app].
    change 48%N with (digit_char 0).
    rewrite (scan_digit base Hb) by lia.
    rewrite N.mul_0_l, N.add_0_l. change (digit_char 0) with 48%N.
    rewrite IH. cbn. now rewrite orb_true_r.
Qed.

(** [int(_, 16)] of a [0x] prefix, any number of zeros and the
    hexadecimal digits of [n] is [n]. *)
Lemma of_str_hex_padded (k : nat) (n : N) :
  of_str 16 ([48; 120]%N ++ repeat 48%N k ++ digits 16 n) = Ok (Z.of_N n)
  /\ of_str 16 (45%N :: [48; 120]%N ++ repeat 48%N k ++ digits 16 n)
     = Ok (- Z.of_N n).
Proof.
  destruct (digits_head 16 ltac:(lia) n) as (d & tl & Hd & E).
  destruct (digit_head_plain 16 d Hd ltac:(lia)) as (_ & _ & _ & Hu).
  assert (exists c tl2, repeat 48%N k ++ digits 16 n = c :: tl2
                        /\ c <> underscore) as (c & tl2 & Ez & Hc).
  { destruct k as [|k]; cbn [repeat app].
    - rewrite E. eauto.
    - eexists _, _. split; [reflexivity | unfold underscore; lia]. }
  apply (of_str_body 16 _ 48%N c (120%N :: c :: tl2) tl2 n);
    cbn [app]; rewrite ?Ez; try reflexivity; try lia.
  - unfold strip_prefix. apply N.eqb_neq in Hc. cbn. now rewrite Hc.
  - rewrite <- Ez, (scan_zeros 16) by lia. apply scan_digits. lia.
Qed.

Lemma of_str_signed_hex (z : Z) : of_str 16 (hex z) = Ok z.
Proof.
  unfold hex, signed.
  destruct (of_str_hex_padded 0 (Z.abs_N z)) as [Hpos Hneg].
  cbn [repeat app] in Hpos, Hneg.
  destruct (Z.ltb_spec z 0); cbn [app].
  - rewrite Hneg. f_equal. rewrite N2Z.inj_abs_N. lia.
  - rewrite Hpos. f_equal. rewrite N2Z.inj_abs_N. lia.
Qed.

Lemma contains_0x_absent (s : pystr) :
  Forall (fun c => c <> 120%N) s -> Str.contains (str "0x") s = false.
Proof.
  change (str "0x") with [48; 120]%N.
  induction s as [|c s IH]; intros H; [reflexivity |].
  apply Forall_cons_iff in H as [_ Hs].
  cbn [Str.contains]. rewrite (IH Hs), orb_false_r.
  cbn [Str.startswith].
  destruct s as [|c' s]; [apply andb_false_r |].
  apply Forall_inv in Hs. apply N.eqb_neq in Hs.
  rewrite (N.eqb_sym 120 c'), Hs. apply andb_false_r.
Qed.

Lemma dec_has_no_0x (z : Z) : Str.contains (str "0x") (dec z) = false.
Proof.
  apply contains_0x_absent. unfold dec, signed. cbn [app].
  apply Forall_app. split.
  - destruct (z <? 0); repeat constructor. lia.
  - apply (digits_aux_chars 10 ltac:(lia)); [|constructor].
    intros d Hd. unfold digit_char. case_tests.
Qed.

End ReadBack.

(** ** [str_to_felt] and [felt_to_str] *)

Lemma hex_nonneg_shape (z : Z) :
  0 <= z -> Show.hex z = [48; 120]%N ++ Show.digits 16 (Z.to_N z).
Proof.
  intros Hz. unfold Show.hex, Show.signed.
  destruct (Z.ltb_spec z 0); [lia |].
  cbn [app]. do 3 f_equal. lia.
Qed.

Lemma hex_nonneg_has_0x (z : Z) :
  0 <= z -> Str.contains (str "0x") (Show.hex z) = true
            /\ Str.startswith (str "0x") (Show.hex z) = true.
Proof.
  intros Hz. rewrite (hex_nonneg_shape z Hz).
  split; [|reflexivity].
  destruct (Show.digits 16 (Z.to_N z)); reflexivity.
Qed.

(** The 31 bytes written for the number read from [bs] decode to the
    text of [bs] behind a run of NUL characters. *)
Lemma to_bytes_decode (bs : pybytes) :
  (length bs <= 31)%nat ->
  is_ascii (List.map Byte.to_N bs) ->
  (let! b_felt := Bytes.to_bytes_big 31 (Bytes.from_bytes_big bs) in
   Bytes.decode b_felt)
  = Ok (repeat 0%N (31 - length bs) ++ List.map Byte.to_N bs).
Proof.
  intros Hlen Ha.
  pose proof (from_bytes_big_bound bs) as [Hlo Hhi].
  assert (Hpow : 256 ^ Z.of_nat (length bs) <= 256 ^ Z.of_nat 31)
    by (apply Z.pow_le_mono_r; lia).
  unfold Bytes.to_bytes_big.
  destruct (Z.ltb_spec (Bytes.from_bytes_big bs) 0); [lia |].
  destruct (Z.leb_spec (256 ^ Z.of_nat 31) (Bytes.from_bytes_big bs)); [lia |].
  cbn [bind].
  rewrite be_bytes_from_bytes_big by exact Hlen.
  now apply decode_padded.
Qed.

(** C1, as the code has it.  For every ASCII text [s] of at most 31
    characters, [str_to_felt(s)] is an integer [felt]; [felt_to_str]
    applied to the decimal or to the hexadecimal text of [felt] returns
    [s] behind as many NUL characters as it takes to make 31 characters,
    and applied to the integer [felt] itself it raises [TypeError]. *)
Theorem felt_to_str_str_to_felt (s : pystr) :
  is_ascii s ->
  (length s <= 31)%nat ->
  exists felt,
    str_to_felt (VStr s) = Ok felt
    /\ felt_to_str (VStr (Show.dec felt)) = Ok (repeat 0%N (31 - length s) ++ s)
    /\ felt_to_str (VStr (Show.hex felt)) = Ok (repeat 0%N (31 - length s) ++ s)
    /\ felt_to_str (VInt felt) = Err TypeError.
Proof.
  intros Ha Hlen.
  destruct (encode_ascii_total s Ha) as [bs Hbs].
  destruct (encode_ascii_ok s bs Hbs) as (_ & Hm & Hl).
  exists (Bytes.from_bytes_big bs).
  assert (Hback : (let! b_felt := Bytes.to_bytes_big 31 (Bytes.from_bytes_big bs) in
                   Bytes.decode b_felt)
                  = Ok (repeat 0%N (31 - length s) ++ s)).
  { rewrite <- Hm at 2. rewrite <- Hl. apply to_bytes_decode.
    - lia.
    - now rewrite Hm. }
  pose proof (from_bytes_big_bound bs) as [Hlo _].
  repeat split.
  - unfold str_to_felt. now rewrite Hbs.
  - unfold felt_to_str. rewrite dec_has_no_0x. cbn [PyInt.int].
    rewrite of_str_signed_dec. exact Hback.
  - unfold felt_to_str.
    rewrite (proj1 (hex_nonneg_has_0x _ Hlo)). cbn [PyInt.int16].
    rewrite of_str_signed_hex. exact Hback.
Qed.

Lemma felt_to_str_str_to_felt_witness :
  exists felt,
    str_to_felt (VStr (str "hello")) = Ok felt
    /\ felt_to_str (VStr (Show.dec felt))
       = Ok (repeat 0%N (31 - length (str "hello")) ++ str "hello")
    /\ felt_to_str (VStr (Show.hex felt))
       = Ok (repeat 0%N (31 - length (str "hello")) ++ str "hello")
    /\ felt_to_str (VInt felt) = Err TypeError.
Proof.
  apply (felt_to_str_str_to_felt (str "hello")).
  - repeat constructor.
  - cbn. lia.
Defined.

(** C1 as stated fails on ["hello"]: [str_to_felt] returns the integer
    448378203247, on which [felt_to_str] raises [TypeError]; on the text
    of that integer it returns 26 NUL characters followed by ["hello"]. *)
Lemma felt_roundtrip_counterexample :
  str_to_felt (VStr (str "hello")) = Ok 448378203247
  /\ felt_to_str (VInt 448378203247) <> Ok (str "hello")
  /\ felt_to_str (VStr (str "448378203247")) <> Ok (str "hello")
  /\ felt_to_str (VStr (str "0x68656c6c6f")) <> Ok (str "hello").
Proof.
  repeat split; try reflexivity; intros H; vm_compute in H; discriminate H.
Qed.

(** ** [hex_address] *)

Definition zero_padded (ds : pystr) : pystr :=
  [48; 120]%N ++ repeat 48%N (64 - length ds) ++ ds.


Lemma _pad_hex_to_64_short (ds : pystr) :
  (length ds < 64)%nat ->
  _pad_hex_to_64 ([48; 120]%N ++ ds) = Some (zero_padded ds).
Proof.
  intros H. unfold _pad_hex_to_64, zero_padded.
  cbn [app length Str.slice_to Str.slice_from firstn skipn Str.times].
  destruct (Nat.ltb_spec (S (S (length ds))) 66); [|lia].
  unfold Str.times. rewrite firstn_O, skipn_O. reflexivity.
Qed.

(** Text that already has 64 digits or more falls through the [if]. *)
Lemma _pad_hex_to_64_long (s : pystr) :
  (66 <= length s)%nat -> _pad_hex_to_64 s = None.
Proof.
  intros H. unfold _pad_hex_to_64.
  destruct (Nat.ltb_spec (length s) 66); [lia | reflexivity].
Qed.





(** Integers from [2^252] on already print on 66 characters or more, and
    for those [_pad_hex_to_64] has no [return]: the 64 digits of [2^252]
    come back as [None] too. *)
Example hex_address_64_digits :
  Show.hex (2 ^ 252)
  = str "0x1000000000000000000000000000000000000000000000000000000000000000"
  /\ length (Show.hex (2 ^ 252)) = 66%nat
  /\ hex_address (VInt (2 ^ 252)) = Ok None.
Proof. repeat split. Qed.

(** * Further properties of [nile/utils] *)

(** ** The uint256 codec the other way round, and how the operations compose *)

Lemma to_uint_of_from_uint (u : uint) :
  fits128 (fst u) -> to_uint (VInt (from_uint u)) = Ok u.
Proof.
  intros [Hlo Hhi]. destruct u as [l h]. cbn [fst snd] in *.
  rewrite to_uint_int. unfold from_uint; cbn [fst snd].
  rewrite Z.shiftl_mul_pow2 by lia.
  do 2 f_equal.
  - rewrite Z.mod_add by lia. apply Z.mod_small. lia.
  - rewrite Z.div_add by lia. rewrite Z.div_small by lia. lia.
Qed.

(** X1.  Decomposing the value of a tuple gives the tuple back as soon as its
    low limb is a 128-bit number, whatever the high limb, so that two
    such tuples with the same value are the same tuple; a larger low limb
    has its excess carried into the high one. *)
Theorem to_uint_from_uint (u : uint) :
  fits128 (fst u) ->
  to_uint (VInt (from_uint u)) = Ok u
  /\ forall v : uint, fits128 (fst v) -> from_uint v = from_uint u -> v = u.
Proof.
  intros Hu. split; [now apply to_uint_of_from_uint |].
  intros v Hv E.
  pose proof (to_uint_of_from_uint v Hv) as Rv.
  rewrite E, (to_uint_of_from_uint u Hu) in Rv. now injection Rv.
Qed.

Lemma to_uint_from_uint_witness :
  to_uint (VInt (from_uint (7, 2 ^ 130))) = Ok (7, 2 ^ 130).
Proof.
  apply (proj1 (to_uint_from_uint (7, 2 ^ 130) ltac:(cbv; split; congruence))).
Defined.

Example to_uint_from_uint_carries :
  to_uint (VInt (from_uint INVALID_UINT256)) = Ok (0, 2 ^ 128).
Proof. reflexivity. Qed.

(** X2.  Since nothing wraps, subtraction undoes addition exactly, also when
    the sum left the 256-bit range: [sub_uint(add_uint(a, b), b)] is [a]
    for every [a] with a 128-bit low limb, and likewise
    [add_uint(sub_uint(a, b), b)], also when [a] is below [b]. *)
Theorem sub_uint_add_uint (a b : uint) :
  fits128 (fst a) ->
  (let! c := add_uint a b in sub_uint c b) = Ok a
  /\ (let! c := sub_uint a b in add_uint c b) = Ok a.
Proof.
  intros Ha. unfold add_uint, sub_uint.
  rewrite !to_uint_int. cbn [bind]. rewrite !from_uint_split.
  split.
  - replace (from_uint a + from_uint b - from_uint b) with (from_uint a) by lia.
    now apply to_uint_of_from_uint.
  - replace (from_uint a - from_uint b + from_uint b) with (from_uint a) by lia.
    now apply to_uint_of_from_uint.
Qed.

Lemma sub_uint_add_uint_witness :
  (let! c := add_uint MAX_UINT256 (5, 0) in sub_uint c (5, 0)) = Ok MAX_UINT256
  /\ (let! c := sub_uint (0, 0) (5, 0) in add_uint c (5, 0)) = Ok (0, 0).
Proof.
  split.
  - apply (sub_uint_add_uint MAX_UINT256 (5, 0)). cbv. split; congruence.
  - apply (sub_uint_add_uint (0, 0) (5, 0)). cbv. split; congruence.
Defined.

(** ** Where [div_rem_uint] is right *)

Lemma round_half_even_bounds (num den : Z) :
  num / den <= Float.round_half_even num den <= num / den + 1.
Proof.
  unfold Float.round_half_even.
  destruct (2 * (num mod den) <? den); [lia |].
  destruct (den <? 2 * (num mod den)); [lia |].
  destruct (Z.even (num / den)); lia.
Qed.

(** What [quotient_log2] returns is a power of two below the quotient,
    within one of the difference of the two logarithms. *)
Lemma quotient_log2_spec (x y : Z) :
  0 < x -> 0 < y ->
  let p := Float.quotient_log2 x y in
  (0 <= p -> y * 2 ^ p <= x)
  /\ (p < 0 -> y <= x * 2 ^ (- p))
  /\ Z.log2 x - Z.log2 y - 1 <= p <= Z.log2 x - Z.log2 y.
Proof.
  intros Hx Hy p. subst p. unfold Float.quotient_log2.
  pose proof (Z.log2_spec x Hx) as [Hxl Hxu].
  pose proof (Z.log2_spec y Hy) as [Hyl Hyu].
  pose proof (Z.log2_nonneg x) as Hlx.
  pose proof (Z.log2_nonneg y) as Hly.
  set (lx := Z.log2 x) in *. set (ly := Z.log2 y) in *.
  set (d := lx - ly).
  destruct (Z.leb_spec 0 d) as [Hd|Hd].
  - destruct (Z.leb_spec (y * 2 ^ d) x) as [Hfit|Hfit].
    + repeat split; intros; lia.
    + repeat split; try lia.
      * intros Hp.
        assert (E : 2 ^ lx = 2 ^ (ly + 1) * 2 ^ (d - 1))
          by (rewrite <- Z.pow_add_r by lia; f_equal; lia).
        assert (0 < 2 ^ (d - 1)) by (apply Z.pow_pos_nonneg; lia).
        replace (Z.succ ly) with (ly + 1) in Hyu by lia. nia.
      * intros Hp. assert (d = 0) by lia.
        replace (- (d - 1)) with 1 by lia. change (2 ^ 1) with 2.
        assert (lx = ly) by lia.
        replace (Z.succ ly) with (lx + 1) in Hyu by lia.
        rewrite Z.pow_add_r in Hyu by lia. change (2 ^ 1) with 2 in Hyu. lia.
  - destruct (Z.leb_spec y (x * 2 ^ (- d))) as [Hfit|Hfit].
    + repeat split; intros; lia.
    + repeat split; try lia.
      intros _. replace (- (d - 1)) with (ly + 1 - lx) by lia.
      assert (E : 2 ^ (ly + 1) = 2 ^ lx * 2 ^ (ly + 1 - lx))
        by (rewrite <- Z.pow_add_r by lia; f_equal; lia).
      assert (0 < 2 ^ (ly + 1 - lx)) by (apply Z.pow_pos_nonneg; lia).
      replace (Z.succ ly) with (ly + 1) in Hyu by lia.
      rewrite E in Hyu. apply Z.lt_le_incl.
      eapply Z.lt_le_trans; [exact Hyu |].
      apply Z.mul_le_mono_nonneg_r; lia.
Qed.

(** With a scaling [D] that exceeds half the divisor, rounding the scaled
    quotient and dropping the scale gives the integer quotient. *)
Lemma round_scaled_quotient (x y D : Z) :
  0 <= x -> 0 < y -> 1 <= D -> y < 2 * D ->
  Float.round_half_even (x * D) y / D = x / y.
Proof.
  intros Hx Hy HD HyD.
  pose proof (Z.div_mod x y ltac:(lia)) as Hxy.
  pose proof (Z.mod_pos_bound x y Hy) as Hr.
  pose proof (Z.div_mod (x * D) y ltac:(lia)) as HXY.
  pose proof (Z.mod_pos_bound (x * D) y Hy) as HR.
  set (q := x / y) in *. set (r := x mod y) in *.
  assert (Hq : 0 <= q) by (apply Z.div_pos; lia).
  unfold Float.round_half_even.
  set (Q := x * D / y) in *. set (R := (x * D) mod y) in *.
  assert (HQlo : q * D <= Q) by nia.
  assert (HQhi : Q < (q + 1) * D) by nia.
  assert (Hup : y <= 2 * R -> Q + 1 < (q + 1) * D).
  { intros H2R.
    destruct (Z.lt_ge_cases (Q + 1) ((q + 1) * D)) as [|Hge]; [assumption |].
    assert (Q = (q + 1) * D - 1) by lia. subst Q.
    assert (R <= y - D) by nia. lia. }
  symmetry.
  destruct (Z.ltb_spec (2 * R) y).
  - apply Z.div_unique_pos with (Q - q * D); lia.
  - destruct (Z.ltb_spec y (2 * R)).
    + apply Z.div_unique_pos with (Q + 1 - q * D); lia.
    + destruct (Z.even Q).
      * apply Z.div_unique_pos with (Q - q * D); lia.
      * apply Z.div_unique_pos with (Q + 1 - q * D); lia.
Qed.

(** True division returns a float as long as the dividend is below
    [2^1023] in absolute value and the divisor is not zero. *)
Lemma truediv_returns (a b : Z) :
  Z.abs a < 2 ^ 1023 -> b <> 0 -> exists f, Float.truediv a b = Ok f.
Proof.
  intros Ha Hb. unfold Float.truediv.
  destruct (Z.eqb_spec b 0) as [|_]; [contradiction |].
  destruct (Z.eqb_spec a 0) as [|Ha0]; [eauto |].
  set (x := Z.abs a) in *. set (y := Z.abs b).
  assert (Hx : 0 < x) by (unfold x; lia).
  assert (Hy : 0 < y) by (unfold y; lia).
  destruct (quotient_log2_spec x y Hx Hy) as (_ & _ & _ & Hp).
  set (p := Float.quotient_log2 x y) in *.
  assert (Hlx : Z.log2 x < 1023) by (apply Z.log2_lt_pow2; lia).
  pose proof (Z.log2_nonneg y) as Hly.
  set (e := Z.max (p - 52) (-1074)).
  destruct (Z.leb_spec 0 e) as [He|He]; [|cbn [andb]; eauto].
  cbn [andb].
  replace (Z.max 0 (- e)) with 0 by lia.
  replace (Z.max 0 e) with e by lia.
  rewrite Z.pow_0_r, Z.mul_1_r.
  set (m := Float.round_half_even x (y * 2 ^ e)).
  assert (HP : 0 < 2 ^ e) by (apply Z.pow_pos_nonneg; lia).
  assert (HPle : 2 ^ e <= 2 ^ 970) by (apply Z.pow_le_mono_r; lia).
  pose proof (round_half_even_bounds x (y * 2 ^ e)) as [_ Hm]. fold m in Hm.
  pose proof (Z.mul_div_le x (y * 2 ^ e) ltac:(nia)) as Hq.
  assert (Hq0 : 0 <= x / (y * 2 ^ e)) by (apply Z.div_pos; nia).
  assert (Hbound : m * 2 ^ e <= x + 2 ^ e).
  { assert (H1 : 2 ^ e <= y * 2 ^ e) by nia.
    assert (H2 : x / (y * 2 ^ e) * 2 ^ e <= x / (y * 2 ^ e) * (y * 2 ^ e))
      by (apply Z.mul_le_mono_nonneg_l; assumption).
    assert (H3 : m * 2 ^ e <= (x / (y * 2 ^ e) + 1) * 2 ^ e)
      by (apply Z.mul_le_mono_nonneg_r; lia).
    lia. }
  destruct (Z.leb_spec (2 ^ 1024) (m * 2 ^ e)) as [Hov|_]; [|eauto].
  exfalso.
  assert (2 ^ 1023 + 2 ^ 970 < 2 ^ 1024) by (vm_compute; reflexivity).
  lia.
Qed.

(** Below [2^53] the float quotient, once truncated, is the integer
    quotient. *)
Lemma truediv_trunc_small (a b : Z) :
  0 <= a < 2 ^ 53 -> 0 < b < 2 ^ 53 ->
  exists f, Float.truediv a b = Ok f /\ Float.trunc f = a / b.
Proof.
  intros Ha Hb. unfold Float.truediv.
  destruct (Z.eqb_spec b 0) as [|_]; [lia |].
  destruct (Z.eqb_spec a 0) as [->|Ha0].
  { eexists. split; [reflexivity |]. now rewrite Z.div_0_l by lia. }
  rewrite (Z.abs_eq a), (Z.abs_eq b) by lia.
  rewrite (Z.sgn_pos a), (Z.sgn_pos b) by lia.
  destruct (quotient_log2_spec a b ltac:(lia) ltac:(lia)) as (Hp0 & _ & Hp).
  set (p := Float.quotient_log2 a b) in *.
  assert (Hla : Z.log2 a < 53) by (apply Z.log2_lt_pow2; lia).
  assert (Hlb : Z.log2 b < 53) by (apply Z.log2_lt_pow2; lia).
  pose proof (Z.log2_nonneg a). pose proof (Z.log2_nonneg b).
  replace (Z.max (p - 52) (-1074)) with (p - 52) by lia.
  replace (Z.max 0 (- (p - 52))) with (52 - p) by lia.
  replace (Z.max 0 (p - 52)) with 0 by lia.
  rewrite Z.pow_0_r, Z.mul_1_r.
  set (D := 2 ^ (52 - p)).
  assert (HD : 1 <= D).
  { unfold D. change 1 with (2 ^ 0). apply Z.pow_le_mono_r; lia. }
  assert (HbD : b < 2 * D).
  { destruct (Z.le_gt_cases 0 p) as [Hp'|Hp'].
    - specialize (Hp0 Hp').
      assert (HP : 0 < 2 ^ p) by (apply Z.pow_pos_nonneg; lia).
      assert (E : 2 ^ 53 = 2 ^ p * (2 * D)).
      { unfold D. rewrite <- (Z.pow_succ_r 2 (52 - p)) by lia.
        rewrite <- Z.pow_add_r by lia. f_equal. lia. }
      nia.
    - assert (2 ^ 52 <= D) by (apply Z.pow_le_mono_r; lia).
      change (2 ^ 53) with (2 * 2 ^ 52) in Hb. lia. }
  set (m := Float.round_half_even (a * D) b).
  assert (Hdiv : m / D = a / b) by (apply round_scaled_quotient; lia).
  assert (Hsmall : m * 2 ^ (p - 52) < 2 ^ 1024 \/ p - 52 < 0).
  { destruct (Z.le_gt_cases 0 (p - 52)); [left | right; lia].
    replace (p - 52) with 0 by lia. change (2 ^ 0) with 1. rewrite Z.mul_1_r.
    assert (HD1 : D = 1)
      by (unfold D; replace (52 - p) with 0 by lia; reflexivity).
    pose proof (round_half_even_bounds (a * D) b) as [_ Hm]. fold m in Hm.
    assert (a * D / b <= a)
      by (rewrite HD1, Z.mul_1_r; apply Z.div_le_upper_bound; nia).
    assert (2 ^ 53 + 1 < 2 ^ 1024) by (vm_compute; reflexivity). lia. }
  assert (Hok : ((0 <=? p - 52) && (2 ^ 1024 <=? m * 2 ^ (p - 52))) = false).
  { destruct (Z.leb_spec 0 (p - 52)); [|reflexivity].
    destruct (Z.leb_spec (2 ^ 1024) (m * 2 ^ (p - 52))); [lia | reflexivity]. }
  rewrite Hok. eexists. split; [reflexivity |].
  unfold Float.trunc. cbn [Float.neg Float.man Float.exp].
  rewrite Z.eqb_refl. cbn [negb].
  destruct (Z.leb_spec 0 (p - 52)).
  - rewrite <- Hdiv.
    assert (D = 1) by (unfold D; replace (52 - p) with 0 by lia; reflexivity).
    replace (p - 52) with 0 by lia. change (2 ^ 0) with 1. rewrite Z.mul_1_r.
    replace D with 1 by lia. now rewrite Z.div_1_r.
  - rewrite <- Hdiv. unfold D. do 2 f_equal. lia.
Qed.

Lemma from_uint_range (u : uint) : is_uint256 u -> 0 <= from_uint u < 2 ^ 256.
Proof.
  unfold is_uint256, fits128, from_uint. destruct u as [l h]; cbn [fst snd].
  rewrite Z.shiftl_mul_pow2 by lia.
  change (2 ^ 256) with (2 ^ 128 * 2 ^ 128). nia.
Qed.

(** X4.  On two uint256 tuples with a non-zero divisor [div_rem_uint] returns,
    and the remainder it returns is the exact one: a uint256 tuple whose
    value is [a mod b], below the divisor.  (The quotient is another
    matter.) *)
Theorem div_rem_uint_remainder (a b : uint) :
  is_uint256 a -> is_uint256 b -> from_uint b <> 0 ->
  exists q r,
    div_rem_uint a b = Ok (q, r)
    /\ from_uint r = from_uint a mod from_uint b
    /\ 0 <= from_uint r < from_uint b
    /\ is_uint256 r.
Proof.
  intros Ha Hb Hb0.
  pose proof (from_uint_range a Ha) as HA.
  pose proof (from_uint_range b Hb) as HB.
  unfold div_rem_uint.
  destruct (truediv_returns (from_uint a) (from_uint b)) as [f Hf];
    [|exact Hb0|].
  { assert (2 ^ 256 < 2 ^ 1023) by (vm_compute; reflexivity). lia. }
  rewrite Hf. cbn [bind]. rewrite !to_uint_int. cbn [bind].
  pose proof (Z.mod_pos_bound (from_uint a) (from_uint b) ltac:(lia)) as Hm.
  do 2 eexists. split; [reflexivity |].
  rewrite from_uint_split.
  split; [reflexivity |]. split; [lia |].
  split; cbn [fst snd]; [apply low_limb_fits | apply high_limb_fits; lia].
Qed.

Lemma div_rem_uint_remainder_witness :
  exists q r,
    div_rem_uint (2 ^ 53 + 1, 0) (2, 0) = Ok (q, r)
    /\ from_uint r = from_uint (2 ^ 53 + 1, 0) mod from_uint (2, 0)
    /\ 0 <= from_uint r < from_uint (2, 0)
    /\ is_uint256 r.
Proof.
  apply (div_rem_uint_remainder (2 ^ 53 + 1, 0) (2, 0)).
  - cbv. repeat split; congruence.
  - cbv. repeat split; congruence.
  - cbv. congruence.
Defined.

(** X5.  When both values are below [2^53] the quotient is exact too:
    [quotient * b + remainder == a] and [0 <= remainder < b]. *)
Theorem div_rem_uint_small (a b : uint) :
  0 <= from_uint a < 2 ^ 53 ->
  0 < from_uint b < 2 ^ 53 ->
  exists q r,
    div_rem_uint a b = Ok (q, r)
    /\ from_uint q = from_uint a / from_uint b
    /\ from_uint r = from_uint a mod from_uint b
    /\ from_uint q * from_uint b + from_uint r = from_uint a
    /\ 0 <= from_uint r < from_uint b.
Proof.
  intros Ha Hb. unfold div_rem_uint.
  destruct (truediv_trunc_small _ _ Ha Hb) as (f & Hf & Ht).
  rewrite Hf. cbn [bind]. rewrite Ht, !to_uint_int. cbn [bind].
  do 2 eexists. split; [reflexivity |].
  rewrite !from_uint_split.
  pose proof (Z.div_mod (from_uint a) (from_uint b) ltac:(lia)).
  pose proof (Z.mod_pos_bound (from_uint a) (from_uint b) ltac:(lia)).
  repeat split; lia.
Qed.

Lemma div_rem_uint_small_witness :
  exists q r,
    div_rem_uint (2 ^ 53 - 1, 0) (10, 0) = Ok (q, r)
    /\ from_uint q = from_uint (2 ^ 53 - 1, 0) / from_uint (10, 0)
    /\ from_uint r = from_uint (2 ^ 53 - 1, 0) mod from_uint (10, 0)
    /\ from_uint q * from_uint (10, 0) + from_uint r = from_uint (2 ^ 53 - 1, 0)
    /\ 0 <= from_uint r < from_uint (10, 0).
Proof.
  apply (div_rem_uint_small (2 ^ 53 - 1, 0) (10, 0)); cbv; split; congruence.
Defined.

Lemma div_rem_uint_by_zero_witness :
  div_rem_uint MAX_UINT256 (0, 0) = Err ZeroDivisionError.
Proof. apply (div_rem_uint_by_zero MAX_UINT256 (0, 0)). reflexivity. Defined.

(** ** More on [str_to_felt] and [felt_to_str] *)

Lemma encode_ascii_non_ascii (s : pystr) :
  ~ is_ascii s -> Bytes.encode_ascii s = Err UnicodeEncodeError.
Proof.
  unfold Bytes.encode_ascii, is_ascii.
  induction s as [|c s IH]; intros Hn.
  - exfalso. apply Hn. constructor.
  - cbn [mapM]. destruct (N.ltb_spec c 128) as [Hc|Hc]; [|reflexivity].
    cbn [bind]. rewrite IH; [reflexivity |].
    intros Hs. apply Hn. now constructor.
Qed.

(** X6.  [str_to_felt] returns exactly on ASCII text, with a number below
    [256 ^ len(text)]; any character from U+0080 on makes it raise
    [UnicodeEncodeError]. *)
Theorem str_to_felt_ascii_only (s : pystr) :
  (is_ascii s
   /\ exists felt, str_to_felt (VStr s) = Ok felt
                   /\ 0 <= felt < 256 ^ Z.of_nat (length s))
  \/ (~ is_ascii s /\ str_to_felt (VStr s) = Err UnicodeEncodeError).
Proof.
  destruct (Forall_dec (fun c => (c < 128)%N)
              (fun c => decide (c < 128)%N) s) as [Ha|Hn].
  - left. split; [exact Ha |].
    destruct (encode_ascii_total s Ha) as [bs Hbs].
    destruct (encode_ascii_ok s bs Hbs) as (_ & _ & Hl).
    exists (Bytes.from_bytes_big bs). unfold str_to_felt. rewrite Hbs.
    split; [reflexivity |]. rewrite <- Hl. apply from_bytes_big_bound.
  - right. split; [exact Hn |].
    unfold str_to_felt. now rewrite encode_ascii_non_ascii.
Qed.

(** X7.  Two texts of the same length with the same felt are the same text.
    The length matters: leading NUL characters do not show in the felt. *)
Theorem str_to_felt_injective (s1 s2 : pystr) (felt : Z) :
  length s1 = length s2 ->
  str_to_felt (VStr s1) = Ok felt ->
  str_to_felt (VStr s2) = Ok felt ->
  s1 = s2.
Proof.
  intros Hlen H1 H2. unfold str_to_felt in H1, H2.
  destruct (Bytes.encode_ascii s1) as [b1|] eqn:E1; [|discriminate].
  destruct (Bytes.encode_ascii s2) as [b2|] eqn:E2; [|discriminate].
  cbn [bind] in H1, H2. injection H1 as H1. injection H2 as H2.
  destruct (encode_ascii_ok s1 b1 E1) as (_ & M1 & L1).
  destruct (encode_ascii_ok s2 b2 E2) as (_ & M2 & L2).
  assert (Hb : b1 = b2).
  { pose proof (be_bytes_from_bytes_big b1 (length b1) (Nat.le_refl _)) as R1.
    pose proof (be_bytes_from_bytes_big b2 (length b2) (Nat.le_refl _)) as R2.
    rewrite Nat.sub_diag in R1, R2. cbn [repeat app] in R1, R2.
    rewrite <- R1, <- R2. rewrite H1, H2. f_equal. lia. }
  rewrite <- M1, <- M2. now rewrite Hb.
Qed.

Lemma str_to_felt_injective_witness : str "ab" = [97; 98]%N.
Proof.
  apply (str_to_felt_injective (str "ab") [97; 98]%N 24930); reflexivity.
Defined.

Example str_to_felt_leading_nul :
  str_to_felt (VStr (0%N :: str "a")) = str_to_felt (VStr (str "a")).
Proof. reflexivity. Qed.

Lemma encode_ascii_app (s1 s2 : pystr) (b1 b2 : pybytes) :
  Bytes.encode_ascii s1 = Ok b1 ->
  Bytes.encode_ascii s2 = Ok b2 ->
  Bytes.encode_ascii (s1 ++ s2) = Ok (b1 ++ b2).
Proof.
  unfold Bytes.encode_ascii. revert b1.
  induction s1 as [|c s1 IH]; intros b1 H1 H2; cbn [mapM app] in *.
  - injection H1 as <-. exact H2.
  - destruct (c <? 128)%N; cbn [bind] in *; [|discriminate].
    destruct (mapM _ s1) as [b1'|]; cbn [bind] in *; [|discriminate].
    injection H1 as <-. now rewrite (IH b1' eq_refl H2).
Qed.

Lemma from_bytes_big_app (b1 b2 : pybytes) :
  Bytes.from_bytes_big (b1 ++ b2)
  = Bytes.from_bytes_big b1 * 256 ^ Z.of_nat (length b2)
    + Bytes.from_bytes_big b2.
Proof.
  induction b2 as [|x b2 IH] using rev_ind.
  - rewrite app_nil_r. cbn. lia.
  - rewrite app_assoc, !from_bytes_big_snoc, IH, length_app.
    cbn [length]. rewrite Nat2Z.inj_add, Z.pow_add_r by lia.
    change (256 ^ Z.of_nat 1) with 256. lia.
Qed.

(** X8.  The felt is the big-endian reading of the text: the felt of a
    concatenation is the felt of the first part shifted by one byte for
    each character of the second part, plus the felt of the second
    part. *)
Theorem str_to_felt_app (s1 s2 : pystr) (f1 f2 : Z) :
  str_to_felt (VStr s1) = Ok f1 ->
  str_to_felt (VStr s2) = Ok f2 ->
  str_to_felt (VStr (s1 ++ s2)) = Ok (f1 * 256 ^ Z.of_nat (length s2) + f2).
Proof.
  unfold str_to_felt. intros H1 H2.
  destruct (Bytes.encode_ascii s1) as [b1|] eqn:E1; [|discriminate].
  destruct (Bytes.encode_ascii s2) as [b2|] eqn:E2; [|discriminate].
  cbn [bind] in H1, H2. injection H1 as <-. injection H2 as <-.
  rewrite (encode_ascii_app s1 s2 b1 b2 E1 E2). cbn [bind].
  destruct (encode_ascii_ok s2 b2 E2) as (_ & _ & L2).
  now rewrite from_bytes_big_app, L2.
Qed.

Lemma str_to_felt_app_witness :
  str_to_felt (VStr (str "he" ++ str "llo"))
  = Ok (26725 * 256 ^ Z.of_nat (length (str "llo")) + 7105647).
Proof.
  apply (str_to_felt_app (str "he") (str "llo") 26725 7105647); reflexivity.
Defined.





Lemma be_bytes_length (n : nat) (z : Z) : length (Bytes.be_bytes n z) = n.
Proof.
  revert z. induction n as [|n IH]; intros z; [reflexivity |].
  cbn [Bytes.be_bytes]. rewrite length_app, IH. cbn [length]. lia.
Qed.

(** A decoded text has at most as many characters as there were bytes,
    and at least a quarter of that. *)
Lemma utf8_length (n : nat) :
  forall (l : list N) (s : pystr),
    (length l <= n)%nat ->
    Bytes.utf8 l = Some s ->
    (length s <= length l <= 4 * length s)%nat.
Proof.
  induction n as [|n IH]; intros l s Hn H.
  - destruct l; [injection H as <-; cbn; lia | cbn in Hn; lia].
  - destruct l as [|b0 r0]; [injection H as <-; cbn; lia |].
    cbn [Bytes.utf8] in H. cbv zeta in H.
    repeat match type of H with
      | (if ?c then _ else _) = Some _ => destruct c
      | match ?r with [] => _ | _ :: _ => _ end = Some _ => destruct r
      | None = Some _ => discriminate H
      | option_map _ (Bytes.utf8 ?r) = Some _ =>
          let E := fresh "E" in
          destruct (Bytes.utf8 r) eqn:E;
          [cbn [option_map] in H; injection H as <-;
           apply IH in E; [|cbn [length] in *; lia];
           cbn [length] in *; lia
          |discriminate H]
      end.
Qed.

(** X10.  Whatever text [felt_to_str] accepts, what it returns has between 8
    and 31 characters. *)
Theorem felt_to_str_length (felt : value) (s : pystr) :
  felt_to_str felt = Ok s -> (8 <= length s <= 31)%nat.
Proof.
  unfold felt_to_str. destruct felt as [z|t]; [discriminate |].
  destruct (if Str.contains (str "0x") t then _ else _) as [n|];
    cbn [bind]; [|discriminate].
  unfold Bytes.to_bytes_big.
  destruct (n <? 0); [discriminate |].
  destruct (256 ^ Z.of_nat 31 <=? n); [discriminate |].
  cbn [bind]. unfold Bytes.decode.
  destruct (Bytes.utf8 _) as [s'|] eqn:E; [|discriminate].
  intros H. injection H as <-.
  apply (utf8_length _ _ _ (Nat.le_refl _)) in E.
  rewrite length_map, be_bytes_length in E. lia.
Qed.

Lemma felt_to_str_length_witness :
  (8 <= length (repeat 0%N 26 ++ str "hello") <= 31)%nat.
Proof.
  apply (felt_to_str_length (VStr (str "0x68656c6c6f"))). reflexivity.
Defined.

(** ** More on [normalize_number] and [hex_address] *)





Lemma digits_nonempty (n : N) : (1 <= length (Show.digits 16 n))%nat.
Proof.
  destruct (digits_head 16 ltac:(lia) n) as (d & tl & _ & E).
  rewrite E. cbn [length]. lia.
Qed.

Lemma hex_length (z : Z) : (3 <= length (Show.hex z))%nat.
Proof.
  unfold Show.hex, Show.signed. rewrite !length_app.
  pose proof (digits_nonempty (Z.abs_N z)). cbn [length]. lia.
Qed.

Lemma startswith_length (p s : pystr) :
  Str.startswith p s = true -> (length p <= length s)%nat.
Proof.
  revert s. induction p as [|x p IH]; intros [|y s] H; cbn [length]; try lia.
  - discriminate H.
  - cbn [Str.startswith] in H. apply andb_true_iff in H as [_ H].
    apply IH in H. lia.
Qed.

Lemma _pad_hex_to_64_length (h s : pystr) :
  (2 <= length h)%nat -> _pad_hex_to_64 h = Some s -> length s = 66%nat.
Proof.
  intros Hh. unfold _pad_hex_to_64.
  destruct (Nat.ltb_spec (length h) 66) as [Hlt|]; [|discriminate].
  destruct h as [|a [|b h']]; cbn [length] in Hh, Hlt; try lia.
  intros H. injection H as <-.
  unfold Str.slice_to, Str.slice_from, Str.times.
  cbn [firstn skipn app length].
  rewrite length_app, repeat_length. lia.
Qed.

Lemma hex_address_some_length (number : value) (s : pystr) :
  hex_address number = Ok (Some s) -> length s = 66%nat.
Proof.
  unfold hex_address.
  assert (Hint : forall v,
             (let! n := PyInt.int v in Ok (_pad_hex_to_64 (Show.hex n)))
             = Ok (Some s) -> length s = 66%nat).
  { intros v. destruct (PyInt.int v) as [n|]; cbn [bind]; [|discriminate].
    intros H. injection H as H.
    apply (_pad_hex_to_64_length (Show.hex n)); [|exact H].
    pose proof (hex_length n). lia. }
  destruct number as [z|t]; [apply Hint |].
  destruct (Str.startswith (str "0x") t) eqn:E; [|apply Hint].
  intros H. injection H as H.
  apply (_pad_hex_to_64_length t); [|exact H].
  apply startswith_length in E. exact E.
Qed.

(** X13.  Whatever [hex_address] is given, a text it returns has exactly 66
    characters; and it does not accept its own results: a returned text
    that starts with [0x], given back to [hex_address], yields [None]. *)
Theorem hex_address_result (number : value) (s : pystr) :
  hex_address number = Ok (Some s) ->
  length s = 66%nat
  /\ (Str.startswith (str "0x") s = true -> hex_address (VStr s) = Ok None).
Proof.
  intros H. apply hex_address_some_length in H. split; [exact H |].
  intros Hs. unfold hex_address. rewrite Hs. f_equal.
  apply _pad_hex_to_64_long. lia.
Qed.

Lemma hex_address_result_witness :
  length (str "0x000000000000000000000000000000000000000000000000000000000000001a")
  = 66%nat
  /\ hex_address
       (VStr (str "0x000000000000000000000000000000000000000000000000000000000000001a"))
     = Ok None.
Proof.
  destruct (hex_address_result (VInt 26)
              (str "0x000000000000000000000000000000000000000000000000000000000000001a")
              eq_refl) as [Hlen Hnone].
  split; [exact Hlen | apply Hnone; reflexivity].
Defined.


Section DigitsLower.
Import Show.

Variable base : N.
Hypothesis base_range : (2 <= base <= 36)%N.

(** A number from [base ^ k] on prints on more than [k] digits. *)
Lemma digits_aux_length_lower (fuel : nat) :
  forall (n : N) (acc : pystr) (k : nat),
    (n < base ^ N.of_nat (S fuel))%N ->
    (base ^ N.of_nat k <= n)%N ->
    (S k + length acc <= length (digits_aux base (S fuel) n acc))%nat.
Proof.
  induction fuel as [|fuel IH]; intros n acc k Hfuel Hk.
  - assert (k = 0%nat).
    { destruct k as [|k]; [reflexivity | exfalso].
      change (N.of_nat 1) with 1%N in Hfuel. rewrite N.pow_1_r in Hfuel.
      rewrite Nat2N.inj_succ, N.pow_succ_r' in Hk.
      assert (1 <= base ^ N.of_nat k)%N by (apply N.neq_0_le_1, N.pow_nonzero; lia).
      nia. }
    subst k. cbn [digits_aux]. destruct (_ =? _)%N; cbn [length]; lia.
  - remember (S fuel) as f eqn:Hf. cbn [digits_aux].
    destruct (N.eqb_spec (n / base) 0) as [Hz|Hz].
    + assert (n < base)%N.
      { apply N.div_small_iff in Hz; lia. }
      assert (k = 0%nat).
      { destruct k as [|k]; [reflexivity | exfalso].
        rewrite Nat2N.inj_succ, N.pow_succ_r' in Hk.
        assert (1 <= base ^ N.of_nat k)%N
          by (apply N.neq_0_le_1, N.pow_nonzero; lia).
        nia. }
      subst k. cbn [length]. lia.
    + subst f.
      assert (Hfuel' : (n / base < base ^ N.of_nat (S fuel))%N).
      { apply N.Div0.div_lt_upper_bound.
        rewrite <- N.pow_succ_r'. now rewrite <- Nat2N.inj_succ. }
      destruct k as [|k].
      * assert (Hk' : (base ^ N.of_nat 0 <= n / base)%N).
        { change (N.of_nat 0) with 0%N. rewrite N.pow_0_r.
          destruct (n / base)%N; [congruence | lia]. }
        pose proof (IH (n / base)%N (digit_char (n mod base) :: acc) 0%nat
                      Hfuel' Hk') as H.
        cbn [length] in H. lia.
      * assert (Hk' : (base ^ N.of_nat k <= n / base)%N).
        { apply N.div_le_lower_bound; [lia |].
          rewrite <- N.pow_succ_r'. now rewrite <- Nat2N.inj_succ. }
        pose proof (IH (n / base)%N (digit_char (n mod base) :: acc) k
                      Hfuel' Hk') as H.
        cbn [length] in H. lia.
Qed.

Lemma digits_length_lower (n : N) (k : nat) :
  (base ^ N.of_nat k <= n)%N -> (S k <= length (digits base n))%nat.
Proof.
  intros Hk. unfold digits.
  pose proof (digits_aux_length_lower (N.to_nat (N.log2 n)) n [] k
                (log2_fuel base base_range n) Hk) as H.
  cbn [length] in H. lia.
Qed.

End DigitsLower.

(** X15.  For a non-negative integer [hex_address] yields [None] exactly from
    [2^252] on, that is as soon as the integer has 64 hexadecimal digits;
    below, it yields a text. *)
Theorem hex_address_none_iff (n : Z) :
  0 <= n ->
  (hex_address (VInt n) = Ok None <-> 2 ^ 252 <= n).
Proof.
  intros Hn. unfold hex_address. cbn [PyInt.int bind].
  rewrite hex_nonneg_shape by lia.
  split.
  - intros H. destruct (Z.le_gt_cases (2 ^ 252) n) as [|Hlt]; [assumption |].
    exfalso.
    assert (Hlen : (length (Show.digits 16 (Z.to_N n)) <= 63)%nat).
    { apply (digits_length 16); [lia |].
      change (16 ^ N.of_nat 63)%N with (Z.to_N (2 ^ 252)). lia. }
    rewrite _pad_hex_to_64_short in H by lia. discriminate H.
  - intros Hge. f_equal. apply _pad_hex_to_64_long.
    assert (Hlen : (64 <= length (Show.digits 16 (Z.to_N n)))%nat).
    { apply (digits_length_lower 16); [lia |].
      change (16 ^ N.of_nat 63)%N with (Z.to_N (2 ^ 252)). lia. }
    rewrite length_app. cbn [length]. lia.
Qed.

Lemma hex_address_none_iff_witness :
  hex_address (VInt (2 ^ 255)) = Ok None.
Proof. apply (hex_address_none_iff (2 ^ 255)); lia. Defined.

(** * [nile/core/account.py] *)

(** What [accounts.load] yields: the [address] and [index] of a record. *)
Record signer_data : Type := SignerData {
  data_address : value;
  data_index : value
}.

(** One entry of the [calls] handed to the signer. *)
Definition call : Type := (value * pystr * list Z)%type.

Module Account.
Section WithCollaborators.

(** [nile.signer.Signer]: built from a private key, it exposes a public
    key and signs transactions. *)
Variable Signer_t : Type.
Variable Signer : value -> Signer_t.
Variable public_key : Signer_t -> Z.
Variable sign_transaction :
  Signer_t -> value -> list call -> value -> Z -> result (list Z * Z * Z).

(** [nile.accounts]: the account records of the address book.  Lookups
    read the book; [register] is its only writer. *)
Variable book : Type.
Variable accounts_exists : book -> Z -> pystr -> bool.
Variable accounts_load : book -> Z -> pystr -> list signer_data.
Variable accounts_current_index : book -> pystr -> Z.
Variable accounts_register :
  book -> Z -> value -> Z -> value -> pystr -> result unit * book.

(** The network side: [nile.deployments], [get_nonce], and the
    dispatchers [nile.core.deploy.deploy] and [call_or_invoke], which
    act on the chain and on the deployments file. *)
Variable chain : Type.
Variable invoke_result : Type.
Variable is_alias : value -> bool.
Variable deployments_load : chain -> value -> pystr -> list (value * value).
Variable get_nonce : chain -> value -> pystr -> result value.
Variable core_deploy :
  chain -> pystr -> list Z -> pystr -> pystr -> pystr * pystr
  -> result (value * value) * chain.

(** The attributes of an [Account] object; [None] is "not assigned". *)
Record t : Type := mk {
  signer : option Signer_t;
  alias : option value;
  network : option pystr;
  abi_path : option pystr;
  address : option value;
  index : option value
}.

Variable call_or_invoke :
  chain -> t -> pystr -> pystr -> list Z -> pystr -> list pystr -> pystr
  -> result invoke_result * chain.

(** Constants the module takes from elsewhere: [UNIVERSAL_DEPLOYER_ADDRESS]
    of [nile.common], and the two paths derived from [__file__]. *)
Variable UNIVERSAL_DEPLOYER_ADDRESS : value.
Variable ABI_PATH : pystr.
Variable ARTIFACTS : pystr * pystr.

(** The process environment, the log, the address book and the chain. *)
Record world : Type := World {
  environ : gmap pystr pystr;
  logged : list pystr;
  accounts : book;
  net : chain
}.

Definition with_accounts (b : book) (w : world) : world :=
  World (environ w) (logged w) b (net w).

Definition with_net (c : chain) (w : world) : world :=
  World (environ w) (logged w) (accounts w) c.

(** [logging.error(msg)] *)
Definition logging_error (msg : pystr) (w : world) : world :=
  World (environ w) (logged w ++ [msg]) (accounts w) (net w).

Definition unset : t := mk None None None None None None.

Definition set_signer (s : Signer_t) (self : t) : t :=
  mk (Some s) (alias self) (network self) (abi_path self) (address self) (index self).
Definition set_alias (a : value) (self : t) : t :=
  mk (signer self) (Some a) (network self) (abi_path self) (address self) (index self).
Definition set_network (n : pystr) (self : t) : t :=
  mk (signer self) (alias self) (Some n) (abi_path self) (address self) (index self).
Definition set_abi_path (p : pystr) (self : t) : t :=
  mk (signer self) (alias self) (network self) (Some p) (address self) (index self).
Definition set_address (a : value) (self : t) : t :=
  mk (signer self) (alias self) (network self) (abi_path self) (Some a) (index self).
Definition set_index (i : value) (self : t) : t :=
  mk (signer self) (alias self) (network self) (abi_path self) (address self) (Some i).

(** [Account.deploy(self)] *)
Definition deploy (self : t) : M world (value * Z) :=
  do! network_ := attr (network self) in
  do! index_ := gets (fun w => accounts_current_index (accounts w) network_) in
  do! signer_ := attr (signer self) in
  do! (address_, _) :=
    (fun w =>
       let '(r, c) := core_deploy (net w) (str "Account")
                        [public_key signer_] network_
                        (str "account-" ++ Show.dec index_) ARTIFACTS in
       (r, with_net c w)) in
  do! alias_ := attr (alias self) in
  do! _ :=
    (fun w =>
       let '(r, b) := accounts_register (accounts w) (public_key signer_)
                        address_ index_ alias_ network_ in
       (r, with_accounts b w)) in
  ret (address_, index_).

(** The message of the [except KeyError] branch of [__init__]. *)
Definition cannot_find (signer_ : value) : pystr :=
  [10; 0x274C]%N ++ str " Cannot find " ++ format signer_ ++ str " in env."
  ++ [10%N] ++ str "Check spelling and that it exists."
  ++ [10%N] ++ str "Try moving the .env to the root of your project.".

(** The [try] block of [__init__]: the assignments done so far stay on
    the object when a statement raises. *)
Definition init_try (environ_ : gmap pystr pystr) (signer_ : value)
    (network_ : pystr) (predeployed_info : option (gmap pystr value))
    (self : t) : result unit * t :=
  match predeployed_info with
  | None =>
      match (let! key := environ_getitem environ_ signer_ in
             normalize_number (VStr key)) with
      | Err e => (Err e, self)
      | Ok n =>
          let self := set_signer (Signer (VInt n)) self in
          let self := set_alias signer_ self in
          (Ok tt, set_network network_ self)
      end
  | Some info =>
      let self := set_signer (Signer signer_) self in
      match getitem info (str "alias") with
      | Err e => (Err e, self)
      | Ok a =>
          let self := set_alias a self in
          (Ok tt, set_network network_ self)
      end
  end.

(** [Account.__init__(self, signer, network, predeployed_info=None)]:
    the result is the constructed object. *)
Definition __init__ (signer_ : value) (network_ : pystr)
    (predeployed_info : option (gmap pystr value)) : M world t :=
  fun w =>
    match init_try (environ w) signer_ network_ predeployed_info unset with
    | (Err KeyError, self) => (Ok self, logging_error (cannot_find signer_) w)
    | (Err e, _) => (Err e, w)
    | (Ok _, self) =>
        let self := set_abi_path ABI_PATH self in
        match predeployed_info with
        | Some info =>
            (do! address_ := lift (getitem info (str "address")) in
             do! index_ := lift (getitem info (str "index")) in
             ret (set_index index_ (set_address address_ self))) w
        | None =>
            (do! signer' := attr (signer self) in
             do! known := gets (fun w => accounts_exists (accounts w)
                                           (public_key signer') network_) in
             if (known : bool) then
               do! data := (fun w => (next (accounts_load (accounts w)
                                             (public_key signer') network_), w)) in
               ret (set_index (data_index data)
                      (set_address (data_address data) self))
             else
               do! (address_, index_) := deploy self in
               ret (set_index (VInt index_) (set_address address_ self))) w
        end
    end.

(** [Account.send], from the conversion of the calldata on, for the
    target address that the first lines have settled. *)
Definition send_resolved (self : t) (target_address : value) (method : pystr)
    (calldata : list value) (max_fee nonce : option value)
  : M world invoke_result :=
  do! calldata := lift (mapM PyInt.int calldata) in
  do! nonce :=
    match nonce with
    | None => do! address_ := attr (address self) in
              do! network_ := attr (network self) in
              fun w => (get_nonce (net w) address_ network_, w)
    | Some n => ret n
    end in
  do! max_fee :=
    match max_fee with
    | None => ret 0
    | Some fee => lift (PyInt.int fee)
    end in
  do! signer_ := attr (signer self) in
  do! address_ := attr (address self) in
  do! (calldata, sig_r, sig_s) :=
    lift (sign_transaction signer_ address_
            [(target_address, method, calldata)] nonce max_fee) in
  do! network_ := attr (network self) in
  fun w =>
    let '(r, c) := call_or_invoke (net w) self (str "invoke")
                     (str "__execute__") calldata network_
                     [Show.dec sig_r; Show.dec sig_s] (Show.dec max_fee) in
    (r, with_net c w).

(** [Account.send(self, to, method, calldata, max_fee=None, nonce=None)] *)
Definition send (self : t) (to : value) (method : pystr)
    (calldata : list value) (max_fee nonce : option value)
  : M world invoke_result :=
  do! to := (if is_alias to then ret to
             else do! n := lift (normalize_number to) in ret (VInt n)) in
  do! network_ := attr (network self) in
  do! target_address :=
    (fun w => match next (deployments_load (net w) to network_) with
              | Ok (target, _) => (Ok target, w)
              | Err StopIteration => (Ok to, w)
              | Err e => (Err e, w)
              end) in
  send_resolved self target_address method calldata max_fee nonce.

(** [Account.deploy_contract(self, class_hash, salt, unique, calldata,
    max_fee=None, deployer_address=None)] *)
Definition deploy_contract (self : t) (class_hash salt unique : value)
    (calldata : list value) (max_fee deployer_address : option value)
  : M world invoke_result :=
  send self
    (py_or deployer_address UNIVERSAL_DEPLOYER_ADDRESS)
    (str "deployContract")
    ([class_hash; salt; unique; VInt (Z.of_nat (length calldata))] ++ calldata)
    max_fee
    None.

(** ** Properties of [Account] *)

Ltac run_M :=
  unfold bindM, attr, ret, lift, gets; cbn [bind fst snd].



(** C10.  In [Account.deploy] the account is registered only once the
    dispatcher's [deploy] has returned: when the dispatcher raises, the
    exception propagates, [accounts.register] is not called and the
    account records are what they were; when it returns an address, the
    records are those that [accounts.register] leaves for that address and
    the index read beforehand. *)
Theorem deploy_registers_after_dispatch (w : world) (self : t)
    (sg : Signer_t) (network_ : pystr) (alias_ : value) :
  signer self = Some sg ->
  network self = Some network_ ->
  alias self = Some alias_ ->
  let index_ := accounts_current_index (accounts w) network_ in
  let dispatched :=
    core_deploy (net w) (str "Account") [public_key sg] network_
      (str "account-" ++ Show.dec index_) ARTIFACTS in
  match fst dispatched with
  | Err e =>
      deploy self w = (Err e, with_net (snd dispatched) w)
      /\ accounts (snd (deploy self w)) = accounts w
  | Ok (address_, _) =>
      let registered :=
        accounts_register (accounts w) (public_key sg) address_ index_
          alias_ network_ in
      deploy self w
      = (match fst registered with
         | Ok _ => Ok (address_, index_)
         | Err e => Err e
         end,
         with_accounts (snd registered) (with_net (snd dispatched) w))
  end.
Proof.
  intros Hs Hn Ha index_ dispatched.
  unfold deploy. run_M. rewrite Hs, Hn, Ha. cbn [bind fst snd].
  fold index_. fold dispatched.
  destruct dispatched as [[[address_ tx]|e] c]; cbn [fst snd].
  - cbn [accounts with_net].
    destruct (accounts_register _ _ _ _ _ _) as [[[]|e] b]; reflexivity.
  - split; reflexivity.
Qed.

(** Whatever the object, [deploy] leaves the account records alone
    unless the dispatcher was called and returned. *)
Lemma deploy_keeps_accounts (w : world) (self : t) :
  (forall sg network_,
     signer self = Some sg ->
     network self = Some network_ ->
     exists e,
       fst (core_deploy (net w) (str "Account") [public_key sg] network_
              (str "account-"
               ++ Show.dec (accounts_current_index (accounts w) network_))
              ARTIFACTS) = Err e) ->
  accounts (snd (deploy self w)) = accounts w.
Proof.
  intros Hfail. unfold deploy. run_M.
  destruct (network self) as [network_|]; [|reflexivity].
  destruct (signer self) as [sg|]; [|reflexivity].
  destruct (Hfail sg network_ eq_refl eq_refl) as [e He].
  cbn [bind fst snd].
  destruct (core_deploy _ _ _ _ _ _) as [[[address_ tx]|e'] c];
    cbn [fst] in He; [discriminate He | reflexivity].
Qed.

(** X21.  The soft failure is that of the lookup alone: an entry that is
    there but does not read as a number makes the constructor raise. *)
Lemma init_bad_key_raises (w : world) (signer_ network_ key : pystr) (e : exn) :
  environ w !! signer_ = Some key ->
  normalize_number (VStr key) = Err e ->
  __init__ (VStr signer_) network_ None w = (Err e, w).
Proof.
  intros Hkey Hbad.
  unfold __init__, init_try, environ_getitem. rewrite Hkey. cbn [bind].
  rewrite Hbad. destruct e; try reflexivity.
  unfold normalize_number, PyInt.int16, PyInt.int, PyInt.of_str in Hbad.
  repeat match type of Hbad with
         | context [match ?x with _ => _ end] => destruct x
         end; discriminate Hbad.
Qed.

(** C6.  [send] settles its target in two steps.  A [to] that is an
    alias is looked up as it is: with no deployment record the target is
    [to] itself and nothing is raised, otherwise it is the address of the
    first record.  A [to] that is not an alias is first normalised to an
    integer (base 16 behind [0x], base 10 otherwise) and that integer is
    looked up in the same way. *)
Theorem send_two_step_resolution (w : world) (self : t) (network_ : pystr)
    (to : value) (method : pystr) (calldata : list value)
    (max_fee nonce : option value) :
  network self = Some network_ ->
  let first_or_literal (key : value) : value :=
    match deployments_load (net w) key network_ with
    | (target, _) :: _ => target
    | [] => key
    end in
  (is_alias to = true ->
   deployments_load (net w) to network_ = [] ->
   send self to method calldata max_fee nonce w
   = send_resolved self to method calldata max_fee nonce w)
  /\ (is_alias to = true ->
      send self to method calldata max_fee nonce w
      = send_resolved self (first_or_literal to) method calldata max_fee nonce w)
  /\ (is_alias to = false ->
      forall n, normalize_number to = Ok n ->
      send self to method calldata max_fee nonce w
      = send_resolved self (first_or_literal (VInt n)) method calldata
          max_fee nonce w)
  /\ (is_alias to = false ->
      forall e, normalize_number to = Err e ->
      send self to method calldata max_fee nonce w = (Err e, w)).
Proof.
  intros Hn first_or_literal. subst first_or_literal.
  repeat split.
  - intros Ha Hmiss. unfold send. run_M. rewrite Ha, Hn, Hmiss. reflexivity.
  - intros Ha. unfold send. run_M. rewrite Ha, Hn.
    destruct (deployments_load (net w) to network_) as [|[target meta] rest];
      reflexivity.
  - intros Ha n Hnum. unfold send. run_M. rewrite Ha, Hnum, Hn.
    destruct (deployments_load (net w) (VInt n) network_) as [|[target meta] rest];
      reflexivity.
  - intros Ha e Hnum. unfold send. run_M. now rewrite Ha, Hnum.
Qed.

(** Once the target is settled, a bound account whose arguments convert
    hands the signer a list of exactly one call and passes what the signer
    returns to [call_or_invoke]. *)
Lemma send_resolved_one_call (w : world) (self : t) (sg : Signer_t)
    (address_ : value) (network_ : pystr) (target : value) (method : pystr)
    (calldata : list value) (ints : list Z) (max_fee nonce : option value)
    (fee : Z) (nonce_ : value) :
  signer self = Some sg ->
  address self = Some address_ ->
  network self = Some network_ ->
  mapM PyInt.int calldata = Ok ints ->
  match nonce with
  | Some n => Ok n
  | None => get_nonce (net w) address_ network_
  end = Ok nonce_ ->
  match max_fee with
  | Some f => PyInt.int f
  | None => Ok 0
  end = Ok fee ->
  send_resolved self target method calldata max_fee nonce w
  = match sign_transaction sg address_ [(target, method, ints)] nonce_ fee with
    | Ok (packed, sig_r, sig_s) =>
        let '(r, c) := call_or_invoke (net w) self (str "invoke")
                         (str "__execute__") packed network_
                         [Show.dec sig_r; Show.dec sig_s] (Show.dec fee) in
        (r, with_net c w)
    | Err e => (Err e, w)
    end.
Proof.
  intros Hs Ha Hn Hcd Hnonce Hfee.
  unfold send_resolved. run_M. rewrite Hcd, Hs, Ha, Hn. cbn [bind].
  destruct nonce as [n|]; cbn [bind] in *.
  - injection Hnonce as ->.
    destruct max_fee as [f|]; [rewrite Hfee | injection Hfee as <-]; cbn [bind];
      destruct (sign_transaction _ _ _ _ _) as [[[packed r] s]|e]; reflexivity.
  - rewrite Hnonce.
    destruct max_fee as [f|]; [rewrite Hfee | injection Hfee as <-]; cbn [bind];
      destruct (sign_transaction _ _ _ _ _) as [[[packed r] s]|e]; reflexivity.
Qed.

Lemma deploy_contract_delegates (self : t) (class_hash salt unique : value)
    (calldata : list value) (max_fee deployer_address : option value) :
  deploy_contract self class_hash salt unique calldata max_fee deployer_address
  = send self (py_or deployer_address UNIVERSAL_DEPLOYER_ADDRESS)
      (str "deployContract")
      (class_hash :: salt :: unique :: VInt (Z.of_nat (length calldata))
         :: calldata)
      max_fee None.
Proof. reflexivity. Qed.

(** C7, as the code has it.  [deploy_contract] makes one call to [send]:
    its target is [deployer_address] when that argument is given and
    true (a non-zero integer, a non-empty text), and the universal
    deployer address when it is absent or false; its method is
    ["deployContract"]; its calldata is [class_hash], [salt], [unique], the
    length of [calldata] and then the elements of [calldata], which for
    two elements reads [class_hash, salt, unique, 2, calldata[0],
    calldata[1]]; [max_fee] is passed on and no nonce is given. *)
Theorem deploy_contract_builds_call (w : world) (self : t)
    (class_hash salt unique : value) (calldata : list value)
    (max_fee deployer_address : option value) :
  let target :=
    match deployer_address with
    | Some d => if truthy d then d else UNIVERSAL_DEPLOYER_ADDRESS
    | None => UNIVERSAL_DEPLOYER_ADDRESS
    end in
  deploy_contract self class_hash salt unique calldata max_fee
    deployer_address w
  = send self target (str "deployContract")
      (class_hash :: salt :: unique :: VInt (Z.of_nat (length calldata))
         :: calldata)
      max_fee None w
  /\ forall c0 c1 : value,
       deploy_contract self class_hash salt unique [c0; c1] max_fee
         deployer_address w
       = send self target (str "deployContract")
           [class_hash; salt; unique; VInt 2; c0; c1] max_fee None w.
Proof.
  intros target. split; [|intros c0 c1]; rewrite deploy_contract_delegates;
    reflexivity.
Qed.

(** C3 at a failing input.  With calldata [["0x1", "100"]] the element
    ["0x1"] goes through [int], which reads base 10 only: whatever the
    target, the method, the fee and the nonce, [send] on a bound account
    raises [ValueError] before anything is signed, although
    [normalize_number], which [send] applies to [to], reads the same text
    as 1. *)
Theorem send_hex_calldata_raises (w : world) (self : t) (network_ : pystr)
    (to : value) (method : pystr) (max_fee nonce : option value) :
  network self = Some network_ ->
  is_alias to = true \/ (exists n, normalize_number to = Ok n) ->
  send self to method [VStr (str "0x1"); VStr (str "100")] max_fee nonce w
  = (Err ValueError, w)
  /\ normalize_number (VStr (str "0x1")) = Ok 1.
Proof.
  intros Hn Hto. split; [|reflexivity].
  unfold send. run_M.
  destruct (is_alias to) eqn:Ha.
  - rewrite Hn.
    destruct (deployments_load (net w) to network_) as [|[target meta] rest];
      reflexivity.
  - destruct Hto as [Hto|[n Hnum]]; [discriminate Hto |].
    rewrite Hnum, Hn.
    destruct (deployments_load (net w) (VInt n) network_)
      as [|[target meta] rest]; reflexivity.
Qed.

(** With decimal texts and integers the conversion of the calldata goes
    through. *)
Example calldata_decimal :
  mapM PyInt.int [VStr (str "1"); VInt 100; VStr (str "100")] = Ok [1; 100; 100].
Proof. reflexivity. Qed.

(** ** The other paths of the constructor *)

(** X16.  With predeployed metadata that has the three keys, the constructor
    binds the object to them: the signer is built from the argument as it
    is, the environment and the address book are not consulted, nothing
    is deployed and the world is left as it was. *)
Theorem init_predeployed (w : world) (signer_ : value) (network_ : pystr)
    (info : gmap pystr value) (alias_ address_ index_ : value) :
  info !! str "alias" = Some alias_ ->
  info !! str "address" = Some address_ ->
  info !! str "index" = Some index_ ->
  __init__ signer_ network_ (Some info) w
  = (Ok (mk (Some (Signer signer_)) (Some alias_) (Some network_)
           (Some ABI_PATH) (Some address_) (Some index_)), w).
Proof.
  intros Ha Hd Hi. unfold __init__, init_try, getitem.
  rewrite Ha. run_M. unfold getitem. now rewrite Hd, Hi.
Qed.

(** X17.  Predeployed metadata without an ["alias"] key takes the soft-failure
    path as well: the [KeyError] is caught, the message about the
    environment is logged and the constructor returns an object that has
    a signer and nothing else. *)
Theorem init_predeployed_without_alias (w : world) (signer_ : value)
    (network_ : pystr) (info : gmap pystr value) :
  info !! str "alias" = None ->
  __init__ signer_ network_ (Some info) w
  = (Ok (set_signer (Signer signer_) unset),
     logging_error (cannot_find signer_) w)
  /\ address (set_signer (Signer signer_) unset) = None
  /\ network (set_signer (Signer signer_) unset) = None.
Proof.
  intros Ha. repeat split.
  unfold __init__, init_try, getitem. now rewrite Ha.
Qed.

(** X18.  Without an ["address"] or an ["index"] key, on the other hand, the
    [KeyError] is raised after the [try] block: the constructor raises
    it, and nothing is logged. *)
Theorem init_predeployed_without_address (w : world) (signer_ : value)
    (network_ : pystr) (info : gmap pystr value) (alias_ : value) :
  info !! str "alias" = Some alias_ ->
  info !! str "address" = None \/ info !! str "index" = None ->
  __init__ signer_ network_ (Some info) w = (Err KeyError, w).
Proof.
  intros Ha Hmiss. unfold __init__, init_try, getitem.
  rewrite Ha. run_M. unfold getitem.
  destruct (info !! str "address") as [address_|]; [|reflexivity].
  destruct Hmiss as [Hd|Hi]; [discriminate Hd |].
  now rewrite Hi.
Qed.

(** X19.  A signer whose key is in the environment and whose account is in the
    address book is bound to the first record that the lookup yields;
    nothing is deployed or registered and the world is left as it was. *)
Theorem init_known_account (w : world) (signer_ key network_ : pystr)
    (private_key : Z) (data : signer_data) (rest : list signer_data) :
  environ w !! signer_ = Some key ->
  normalize_number (VStr key) = Ok private_key ->
  let sg := Signer (VInt private_key) in
  accounts_exists (accounts w) (public_key sg) network_ = true ->
  accounts_load (accounts w) (public_key sg) network_ = data :: rest ->
  __init__ (VStr signer_) network_ None w
  = (Ok (mk (Some sg) (Some (VStr signer_)) (Some network_) (Some ABI_PATH)
           (Some (data_address data)) (Some (data_index data))), w).
Proof.
  intros Hkey Hnum sg Hex Hload.
  unfold __init__, init_try, environ_getitem. rewrite Hkey. cbn [bind].
  rewrite Hnum. run_M. cbn [signer set_abi_path set_network set_alias set_signer].
  fold sg. rewrite Hex, Hload. reflexivity.
Qed.

(** X20.  A signer with a key and no account is deployed on the spot: when the
    dispatcher returns an address and the registration goes through, the
    object is bound to that address and to the index read from the
    address book before the dispatch, and the world is the one the
    dispatcher and the registration leave; when the dispatcher raises, so
    does the constructor, and the account records are unchanged. *)
Theorem init_first_use (w : world) (signer_ key network_ : pystr)
    (private_key : Z) :
  environ w !! signer_ = Some key ->
  normalize_number (VStr key) = Ok private_key ->
  let sg := Signer (VInt private_key) in
  accounts_exists (accounts w) (public_key sg) network_ = false ->
  let index_ := accounts_current_index (accounts w) network_ in
  let dispatched :=
    core_deploy (net w) (str "Account") [public_key sg] network_
      (str "account-" ++ Show.dec index_) ARTIFACTS in
  match fst dispatched with
  | Err e =>
      __init__ (VStr signer_) network_ None w
      = (Err e, with_net (snd dispatched) w)
  | Ok (address_, _) =>
      let registered :=
        accounts_register (accounts w) (public_key sg) address_ index_
          (VStr signer_) network_ in
      __init__ (VStr signer_) network_ None w
      = (match fst registered with
         | Ok _ => Ok (mk (Some sg) (Some (VStr signer_)) (Some network_)
                         (Some ABI_PATH) (Some address_) (Some (VInt index_)))
         | Err e => Err e
         end,
         with_accounts (snd registered) (with_net (snd dispatched) w))
  end.
Proof.
  intros Hkey Hnum sg Hex index_ dispatched.
  unfold __init__, init_try, environ_getitem. rewrite Hkey. cbn [bind].
  rewrite Hnum. run_M. cbn [signer set_abi_path set_network set_alias set_signer].
  fold sg. rewrite Hex.
  unfold deploy. run_M.
  cbn [signer network alias set_abi_path set_network set_alias set_signer].
  fold index_. fold dispatched.
  destruct dispatched as [[[address_ tx]|e] c]; cbn [fst snd]; [|reflexivity].
  cbn [accounts with_net].
  destruct (accounts_register _ _ _ _ _ _) as [[[]|e] b]; reflexivity.
Qed.

(** ** Errors of [send] before anything is signed *)

(** X22.  A calldata element that [int] rejects stops [send] at the
    conversion: the exception of the first such element is raised, the
    nonce is not queried, nothing is signed or dispatched and the world is
    left as it was. *)
Theorem send_calldata_error (w : world) (self : t) (network_ : pystr)
    (to : value) (method : pystr) (calldata : list value)
    (max_fee nonce : option value) (e : exn) :
  network self = Some network_ ->
  is_alias to = true \/ (exists n, normalize_number to = Ok n) ->
  mapM PyInt.int calldata = Err e ->
  send self to method calldata max_fee nonce w = (Err e, w).
Proof.
  intros Hn Hto Hcd. unfold send. run_M.
  destruct (is_alias to) eqn:Ha.
  - rewrite Hn.
    destruct (deployments_load (net w) to network_) as [|[target meta] rest];
      cbn [next]; unfold send_resolved; run_M; now rewrite Hcd.
  - destruct Hto as [Hto|[n Hnum]]; [discriminate Hto |].
    rewrite Hnum, Hn.
    destruct (deployments_load (net w) (VInt n) network_)
      as [|[target meta] rest];
      cbn [next]; unfold send_resolved; run_M; now rewrite Hcd.
Qed.

Lemma mapM_length {A B : Type} (f : A -> result B) (l : list A) (l' : list B) :
  mapM f l = Ok l' -> length l' = length l.
Proof.
  revert l'. induction l as [|x l IH]; intros l' H; cbn [mapM] in H.
  - now injection H as <-.
  - destruct (f x); cbn [bind] in H; [|discriminate].
    destruct (mapM f l) as [ys|]; cbn [bind] in H; [|discriminate].
    injection H as <-. cbn [length]. now rewrite (IH ys).
Qed.

(** X23.  [deploy_contract] down to the signer.  On a bound account, with no
    deployer address given, the universal deployer address a number with
    no deployment record, and arguments that convert, the signer is
    handed one call: to the universal deployer address as an integer,
    method ["deployContract"], and calldata made of the class hash, the
    salt, the flag, the number of constructor arguments and those
    arguments, all as integers; what the signer returns goes to
    [call_or_invoke]. *)
Theorem deploy_contract_signs_one_call (w : world) (self : t)
    (sg : Signer_t) (address_ : value) (network_ : pystr)
    (class_hash salt unique : value) (calldata : list value)
    (h s u deployer : Z) (ints : list Z) (max_fee : option value)
    (fee : Z) (nonce_ : value) :
  signer self = Some sg ->
  address self = Some address_ ->
  network self = Some network_ ->
  is_alias UNIVERSAL_DEPLOYER_ADDRESS = false ->
  normalize_number UNIVERSAL_DEPLOYER_ADDRESS = Ok deployer ->
  deployments_load (net w) (VInt deployer) network_ = [] ->
  PyInt.int class_hash = Ok h ->
  PyInt.int salt = Ok s ->
  PyInt.int unique = Ok u ->
  mapM PyInt.int calldata = Ok ints ->
  get_nonce (net w) address_ network_ = Ok nonce_ ->
  match max_fee with
  | Some f => PyInt.int f
  | None => Ok 0
  end = Ok fee ->
  deploy_contract self class_hash salt unique calldata max_fee None w
  = match sign_transaction sg address_
            [(VInt deployer, str "deployContract",
              h :: s :: u :: Z.of_nat (length ints) :: ints)] nonce_ fee with
    | Ok (packed, sig_r, sig_s) =>
        let '(r, c) := call_or_invoke (net w) self (str "invoke")
                         (str "__execute__") packed network_
                         [Show.dec sig_r; Show.dec sig_s] (Show.dec fee) in
        (r, with_net c w)
    | Err e => (Err e, w)
    end.
Proof.
  intros Hs Ha Hn Hal Hnum Hload Hh Hsalt Hu Hcd Hnonce Hfee.
  rewrite deploy_contract_delegates. cbn [py_or].
  unfold send. unfold bindM at 1 2 3. unfold ret, lift.
  rewrite Hal. unfold bindM at 1. rewrite Hnum. unfold attr at 1.
  rewrite Hn. unfold ret. rewrite Hload. cbn [next].
  apply send_resolved_one_call; try assumption.
  cbn [mapM]. rewrite Hh, Hsalt, Hu. cbn [bind PyInt.int].
  rewrite Hcd. cbn [bind]. now rewrite (mapM_length _ _ _ Hcd).
Qed.

(** ** [get_contract_class] and [Account.declare] *)

(** What lies outside: reading a file ([open(path).read()], which raises
    when the file is not there), [ContractClass.loads], the build and ABI
    directories of [nile.common], the signer's [sign_declare] and the
    dispatcher [nile.core.declare.declare]. *)
Variable contract_class : Type.
Variable declare_result : Type.
Variable read_file : pystr -> result pystr.
Variable loads : pystr -> result contract_class.
Variable BUILD_DIRECTORY : pystr.
Variable ABIS_DIRECTORY : pystr.
Variable sign_declare :
  Signer_t -> value -> contract_class -> value -> Z -> result (Z * Z).
Variable core_declare :
  chain -> value -> pystr -> list Z -> option value -> pystr -> Z
  -> result declare_result * chain.

(** [get_contract_class(contract_name, overriding_path=None)] of
    [nile/utils]; a pair of paths is true, so only [None] gives the
    default. *)
Definition get_contract_class (contract_name : pystr)
    (overriding_path : option (pystr * pystr)) : result contract_class :=
  let base_path :=
    match overriding_path with
    | Some paths => paths
    | None => (BUILD_DIRECTORY, ABIS_DIRECTORY)
    end in
  let! text := read_file (fst base_path ++ str "/" ++ contract_name
                          ++ str ".json") in
  loads text.

(** [Account.declare(self, contract_name, max_fee=None, nonce=None,
    alias=None, overriding_path=None)] *)
Definition declare (self : t) (contract_name : pystr)
    (max_fee nonce alias_ : option value)
    (overriding_path : option (pystr * pystr)) : M world declare_result :=
  do! nonce :=
    match nonce with
    | None => do! address_ := attr (address self) in
              do! network_ := attr (network self) in
              fun w => (get_nonce (net w) address_ network_, w)
    | Some n => ret n
    end in
  do! max_fee :=
    match max_fee with
    | None => ret 0
    | Some fee => lift (PyInt.int fee)
    end in
  do! class := lift (get_contract_class contract_name overriding_path) in
  do! signer_ := attr (signer self) in
  do! address_ := attr (address self) in
  do! (sig_r, sig_s) :=
    lift (sign_declare signer_ address_ class nonce max_fee) in
  do! address_ := attr (address self) in
  do! network_ := attr (network self) in
  fun w =>
    let '(r, c) := core_declare (net w) address_ contract_name
                     [sig_r; sig_s] alias_ network_ max_fee in
    (r, with_net c w).

(** The class is looked for in the first directory of the pair alone:
    the build directory by default, the first overriding path otherwise;
    the ABI directory plays no part. *)
Lemma get_contract_class_path (name : pystr) (paths : option (pystr * pystr)) :
  get_contract_class name paths
  = (let! text := read_file (match paths with
                             | Some (build, _) => build
                             | None => BUILD_DIRECTORY
                             end ++ str "/" ++ name ++ str ".json") in
     loads text).
Proof. unfold get_contract_class. destruct paths as [[build abis]|]; reflexivity. Qed.

Lemma declare_class_error (w : world) (self : t)
    (address_ : value) (network_ : pystr) (contract_name : pystr)
    (max_fee nonce alias_ : option value)
    (overriding_path : option (pystr * pystr))
    (fee : Z) (nonce_ : value) (e : exn) :
  address self = Some address_ ->
  network self = Some network_ ->
  match nonce with
  | Some n => Ok n
  | None => get_nonce (net w) address_ network_
  end = Ok nonce_ ->
  match max_fee with
  | Some f => PyInt.int f
  | None => Ok 0
  end = Ok fee ->
  get_contract_class contract_name overriding_path = Err e ->
  declare self contract_name max_fee nonce alias_ overriding_path w
  = (Err e, w).
Proof.
  intros Ha Hn Hnonce Hfee Hclass.
  unfold declare. run_M. rewrite Ha, Hn. cbn [bind].
  destruct nonce as [n|]; cbn [bind] in *.
  - destruct max_fee as [f|]; [rewrite Hfee|]; cbn [bind]; now rewrite Hclass.
  - rewrite Hnonce.
    destruct max_fee as [f|]; [rewrite Hfee|]; cbn [bind]; now rewrite Hclass.
Qed.

(** X24.  When the file of the class, [<build>/<name>.json] with [<build>] the
    first overriding path or else the build directory, cannot be read,
    [declare] raises what reading raised once the nonce and the fee are
    settled: nothing is signed, the dispatcher is not called and the
    world is left as it was. *)
Theorem declare_without_artifact (w : world) (self : t)
    (address_ : value) (network_ : pystr) (contract_name : pystr)
    (max_fee nonce alias_ : option value)
    (overriding_path : option (pystr * pystr))
    (fee : Z) (nonce_ : value) (e : exn) :
  address self = Some address_ ->
  network self = Some network_ ->
  match nonce with
  | Some n => Ok n
  | None => get_nonce (net w) address_ network_
  end = Ok nonce_ ->
  match max_fee with
  | Some f => PyInt.int f
  | None => Ok 0
  end = Ok fee ->
  read_file (match overriding_path with
             | Some (build, _) => build
             | None => BUILD_DIRECTORY
             end ++ str "/" ++ contract_name ++ str ".json") = Err e ->
  declare self contract_name max_fee nonce alias_ overriding_path w
  = (Err e, w).
Proof.
  intros Ha Hn Hnonce Hfee Hread.
  apply (declare_class_error w self address_ network_ contract_name max_fee
           nonce alias_ overriding_path fee nonce_ e); try assumption.
  rewrite get_contract_class_path, Hread. reflexivity.
Qed.

(** X25.  With the class read from that file and parsed, [declare] signs it
    for the account with the nonce and the fee settled before, and hands
    the dispatcher the account address, the contract name, the two
    signature values, the alias, the network and the fee. *)
Theorem declare_signs_and_dispatches (w : world) (self : t) (sg : Signer_t)
    (address_ : value) (network_ : pystr) (contract_name : pystr)
    (max_fee nonce alias_ : option value)
    (overriding_path : option (pystr * pystr))
    (fee : Z) (nonce_ : value) (text : pystr) (class : contract_class) :
  signer self = Some sg ->
  address self = Some address_ ->
  network self = Some network_ ->
  match nonce with
  | Some n => Ok n
  | None => get_nonce (net w) address_ network_
  end = Ok nonce_ ->
  match max_fee with
  | Some f => PyInt.int f
  | None => Ok 0
  end = Ok fee ->
  read_file (match overriding_path with
             | Some (build, _) => build
             | None => BUILD_DIRECTORY
             end ++ str "/" ++ contract_name ++ str ".json") = Ok text ->
  loads text = Ok class ->
  declare self contract_name max_fee nonce alias_ overriding_path w
  = match sign_declare sg address_ class nonce_ fee with
    | Ok (sig_r, sig_s) =>
        let '(r, c) := core_declare (net w) address_ contract_name
                         [sig_r; sig_s] alias_ network_ fee in
        (r, with_net c w)
    | Err e => (Err e, w)
    end.
Proof.
  intros Hs Ha Hn Hnonce Hfee Hread Hloads.
  assert (Hclass : get_contract_class contract_name overriding_path = Ok class).
  { rewrite get_contract_class_path, Hread. exact Hloads. }
  unfold declare. run_M. rewrite Hs, Ha, Hn. cbn [bind].
  destruct nonce as [n|]; cbn [bind] in *.
  - injection Hnonce as ->.
    destruct max_fee as [f|]; [rewrite Hfee | injection Hfee as <-];
      cbn [bind]; rewrite Hclass; cbn [bind];
      destruct (sign_declare _ _ _ _ _) as [[r s]|e']; reflexivity.
  - rewrite Hnonce.
    destruct max_fee as [f|]; [rewrite Hfee | injection Hfee as <-];
      cbn [bind]; rewrite Hclass; cbn [bind];
      destruct (sign_declare _ _ _ _ _) as [[r s]|e']; reflexivity.
Qed.

End WithCollaborators.
End Account.

Arguments Account.mk {Signer_t}.
Arguments Account.unset {Signer_t}.

(** * A closed instance of the collaborators

    The collaborators of [Account] live in other modules of the package.
    The instance below fixes one choice of them, so that the statements above
    can be run on explicit inputs. *)

Module Demo.

(** Modelled from the spec: [nile.accounts] is not one of the two files
    embedded here.
    The address book keeps the account records in registration order;
    a lookup yields the records of a public key on a network,
    [current_index] is the number of records of the network ("the next
    unused deployment index for the network, 0 if none exist") and
    [register] appends a record. *)
Record account_record : Type := AccountRecord {
  rec_pubkey : Z;
  rec_address : value;
  rec_index : Z;
  rec_alias : value;
  rec_network : pystr
}.

Definition book : Type := list account_record.

Definition accounts_load (b : book) (pubkey : Z) (network : pystr)
  : list signer_data :=
  List.map (fun r => SignerData (rec_address r) (VInt (rec_index r)))
    (List.filter (fun r => (rec_pubkey r =? pubkey)
                           && Str.eqb (rec_network r) network) b).

Definition accounts_exists (b : book) (pubkey : Z) (network : pystr) : bool :=
  match accounts_load b pubkey network with
  | [] => false
  | _ :: _ => true
  end.

Definition accounts_current_index (b : book) (network : pystr) : Z :=
  Z.of_nat (length (List.filter (fun r => Str.eqb (rec_network r) network) b)).

Definition accounts_register (b : book) (pubkey : Z) (address : value)
    (index : Z) (alias : value) (network : pystr) : result unit * book :=
  (Ok tt, b ++ [AccountRecord pubkey address index alias network]).

(** Modelled from the spec: [nile.deployments] and the dispatchers are
    not in the two files embedded here.  A deployment record maps an alias to an
    address on a network; a lookup by alias yields the matching records,
    an empty sequence on a miss.  The dispatcher's [deploy] answers with
    a fresh address and records it when the network is reachable, and
    raises otherwise; [call_or_invoke] returns the parameters it was
    given. *)
Record deployment : Type := Deployment {
  dep_alias : pystr;
  dep_address : value;
  dep_network : pystr
}.

Record chain : Type := Chain {
  reachable : bool;
  deployed : list deployment;
  fresh : Z
}.

Definition deployments_load (c : chain) (key : value) (network : pystr)
  : list (value * value) :=
  List.map (fun d => (dep_address d, VStr (dep_alias d)))
    (List.filter (fun d => Str.eqb (dep_network d) network
                           && match key with
                              | VStr k => Str.eqb (dep_alias d) k
                              | VInt _ => false
                              end)
       (deployed c)).

Definition unreachable : exn := External 1.

Definition core_deploy (c : chain) (name : pystr) (calldata : list Z)
    (network alias : pystr) (paths : pystr * pystr)
  : result (value * value) * chain :=
  if reachable c then
    (Ok (VInt (fresh c), VInt 0),
     Chain true (deployed c ++ [Deployment alias (VInt (fresh c)) network])
       (fresh c + 1))
  else (Err unreachable, c).

Definition get_nonce (c : chain) (address : value) (network : pystr)
  : result value :=
  if reachable c then Ok (VInt 0) else Err unreachable.

(** Modelled from the spec: [nile.common.is_alias] is not in the two
    files embedded here; an alias token is a text that does not read as a
    number. *)
Definition is_alias (v : value) : bool :=
  match v with
  | VStr _ => match normalize_number v with Ok _ => false | Err _ => true end
  | VInt _ => false
  end.

(** A stand-in for [nile.signer.Signer]: the packed calldata lists the
    number of calls and, for each call, the target as a felt (a text
    that is not a number stands for its [str_to_felt]), the number of
    arguments and the arguments. *)
Definition Signer_t : Type := Z.

Definition Signer (key : value) : Signer_t :=
  match normalize_number key with
  | Ok k => k
  | Err _ => 0
  end.

Definition public_key (s : Signer_t) : Z := 2 * s + 1.

Definition target_felt (target : value) : Z :=
  match normalize_number target, str_to_felt target with
  | Ok t, _ => t
  | Err _, Ok f => f
  | Err _, Err _ => 0
  end.

Definition pack (c : call) : list Z :=
  let '(target, _, calldata) := c in
  target_felt target :: Z.of_nat (length calldata) :: calldata.

Definition sign_transaction (s : Signer_t) (sender : value)
    (calls : list call) (nonce : value) (max_fee : Z)
  : result (list Z * Z * Z) :=
  Ok (Z.of_nat (length calls) :: List.concat (List.map pack calls), s, max_fee).

Definition call_or_invoke (c : chain) (contract : Account.t Signer_t)
    (type method : pystr) (params : list Z) (network : pystr)
    (signature : list pystr) (max_fee : pystr)
  : result (list Z) * chain :=
  if reachable c then (Ok params, c) else (Err unreachable, c).

Definition UNIVERSAL_DEPLOYER_ADDRESS : value :=
  VStr (str "0x041a78e741e5af2fec34b695679bc6891742439f7afb8484ecd7766661ad02bf").
Definition ABI_PATH : pystr := str "nile/artifacts/abis/Account.json".
Definition ARTIFACTS : pystr * pystr :=
  (str "nile/artifacts", str "nile/artifacts/abis").

Definition world : Type := Account.world book chain.

Definition __init__ : value -> pystr -> option (gmap pystr value)
                      -> M world (Account.t Signer_t) :=
  Account.__init__ Signer_t Signer public_key book accounts_exists
    accounts_load accounts_current_index accounts_register chain core_deploy
    ABI_PATH ARTIFACTS.

Definition deploy : Account.t Signer_t -> M world (value * Z) :=
  Account.deploy Signer_t public_key book accounts_current_index
    accounts_register chain core_deploy ARTIFACTS.

Definition send : Account.t Signer_t -> value -> pystr -> list value
                  -> option value -> option value -> M world (list Z) :=
  Account.send Signer_t sign_transaction book chain (list Z) is_alias
    deployments_load get_nonce call_or_invoke.

Definition send_resolved : Account.t Signer_t -> value -> pystr -> list value
                  -> option value -> option value -> M world (list Z) :=
  Account.send_resolved Signer_t sign_transaction book chain (list Z)
    get_nonce call_or_invoke.

Definition deploy_contract : Account.t Signer_t -> value -> value -> value
    -> list value -> option value -> option value -> M world (list Z) :=
  Account.deploy_contract Signer_t sign_transaction book chain (list Z)
    is_alias deployments_load get_nonce call_or_invoke
    UNIVERSAL_DEPLOYER_ADDRESS.

(** A network with nothing on it, and an environment with one key. *)
Definition goerli : pystr := str "goerli".

Definition online : world :=
  Account.World book chain {[ str "ALICE" := str "0x10" ]} [] []
    (Chain true [] 500).

Definition offline : world :=
  Account.World book chain {[ str "ALICE" := str "0x10" ]} [] []
    (Chain false [] 500).

(** An account bound to address 500 with index 0. *)
Definition alice : Account.t Signer_t :=
  Account.mk (Some 16) (Some (VStr (str "ALICE"))) (Some goerli)
    (Some ABI_PATH) (Some (VInt 500)) (Some (VInt 0)).

End Demo.

(** Constructing the account of a signer with no record deploys it once,
    with index 0, and registers it; the next signer gets index 1. *)
Example first_use_deploys :
  Demo.__init__ (VStr (str "ALICE")) Demo.goerli None Demo.online
  = (Ok Demo.alice,
     Account.World Demo.book Demo.chain {[ str "ALICE" := str "0x10" ]} []
       [Demo.AccountRecord 33 (VInt 500) 0 (VStr (str "ALICE")) Demo.goerli]
       (Demo.Chain true
          [Demo.Deployment (str "account-0") (VInt 500) Demo.goerli] 501)).
Proof. vm_compute. reflexivity. Qed.

(** ** The statements on explicit inputs *)


Lemma deploy_registers_after_dispatch_witness :
  Demo.deploy Demo.alice Demo.offline = (Err Demo.unreachable, Demo.offline)
  /\ Account.accounts Demo.book Demo.chain
       (snd (Demo.deploy Demo.alice Demo.offline))
     = Account.accounts Demo.book Demo.chain Demo.offline.
Proof.
  exact (Account.deploy_registers_after_dispatch Demo.Signer_t Demo.public_key
           Demo.book Demo.accounts_current_index Demo.accounts_register
           Demo.chain Demo.core_deploy Demo.ARTIFACTS Demo.offline Demo.alice
           16 Demo.goerli (VStr (str "ALICE")) eq_refl eq_refl eq_refl).
Defined.

Lemma send_two_step_resolution_witness :
  Demo.send Demo.alice (VStr (str "some-alias")) (str "transfer")
    [VStr (str "1"); VStr (str "100")] None None Demo.online
  = Demo.send_resolved Demo.alice (VStr (str "some-alias")) (str "transfer")
      [VStr (str "1"); VStr (str "100")] None None Demo.online.
Proof.
  exact (proj1 (Account.send_two_step_resolution Demo.Signer_t
                  Demo.sign_transaction Demo.book Demo.chain (list Z)
                  Demo.is_alias Demo.deployments_load Demo.get_nonce
                  Demo.call_or_invoke Demo.online Demo.alice Demo.goerli
                  (VStr (str "some-alias")) (str "transfer")
                  [VStr (str "1"); VStr (str "100")] None None eq_refl)
           eq_refl eq_refl).
Defined.

Lemma send_hex_calldata_raises_witness :
  Demo.send Demo.alice (VStr (str "some-alias")) (str "transfer")
    [VStr (str "0x1"); VStr (str "100")] None None Demo.online
  = (Err ValueError, Demo.online)
  /\ normalize_number (VStr (str "0x1")) = Ok 1.
Proof.
  apply (Account.send_hex_calldata_raises Demo.Signer_t Demo.sign_transaction
           Demo.book Demo.chain (list Z) Demo.is_alias Demo.deployments_load
           Demo.get_nonce Demo.call_or_invoke Demo.online Demo.alice
           Demo.goerli (VStr (str "some-alias")) (str "transfer") None None).
  - reflexivity.
  - left. reflexivity.
Defined.

(** With decimal calldata the same request goes through, to the alias
    taken as the literal target. *)
Example send_to_unknown_alias :
  Demo.send Demo.alice (VStr (str "some-alias")) (str "transfer")
    [VStr (str "1"); VStr (str "100")] None None Demo.online
  = (Ok [1; 545127616878810195648883; 2; 1; 100], Demo.online).
Proof. vm_compute. reflexivity. Qed.

(** C7 as stated fails when the deployer address given is 0: the call
    goes to the universal deployer, not to address 0. *)
Lemma deploy_contract_zero_deployer_counterexample :
  Demo.deploy_contract Demo.alice (VInt 7) (VInt 8) (VInt 1)
    [VInt 3; VInt 4] None (Some (VInt 0)) Demo.online
  = (Ok [1; 0x041a78e741e5af2fec34b695679bc6891742439f7afb8484ecd7766661ad02bf;
         6; 7; 8; 1; 2; 3; 4], Demo.online)
  /\ Demo.send Demo.alice (VInt 0) (str "deployContract")
       [VInt 7; VInt 8; VInt 1; VInt 2; VInt 3; VInt 4] None None Demo.online
     = (Ok [1; 0; 6; 7; 8; 1; 2; 3; 4], Demo.online)
  /\ Demo.deploy_contract Demo.alice (VInt 7) (VInt 8) (VInt 1)
       [VInt 3; VInt 4] None (Some (VInt 0)) Demo.online
     <> Demo.send Demo.alice (VInt 0) (str "deployContract")
          [VInt 7; VInt 8; VInt 1; VInt 2; VInt 3; VInt 4] None None
          Demo.online.
Proof.
  repeat split; try (vm_compute; reflexivity).
  intros H. vm_compute in H. discriminate H.
Qed.

(** ** The further statements on explicit inputs *)

Module DemoDeclare.

(** Modelled from the spec: the artifact store and the declare
    dispatcher are not in the two files embedded here.  One class file
    exists, in the build directory; a class is kept as its text; the
    dispatcher answers with the signature it was given. *)
Definition missing : exn := External 2.

Definition BUILD_DIRECTORY : pystr := str "artifacts".
Definition ABIS_DIRECTORY : pystr := str "artifacts/abis".

Definition read_file (path : pystr) : result pystr :=
  if Str.eqb path (str "artifacts/Account.json") then Ok (str "{}")
  else Err missing.

Definition loads (text : pystr) : result pystr := Ok text.

Definition sign_declare (s : Demo.Signer_t) (sender : value) (class : pystr)
    (nonce : value) (max_fee : Z) : result (Z * Z) :=
  Ok (s, max_fee).

Definition core_declare (c : Demo.chain) (sender : value) (name : pystr)
    (signature : list Z) (alias : option value) (network : pystr)
    (max_fee : Z) : result (list Z) * Demo.chain :=
  if Demo.reachable c then (Ok signature, c) else (Err Demo.unreachable, c).

Definition declare : Account.t Demo.Signer_t -> pystr -> option value
    -> option value -> option value -> option (pystr * pystr)
    -> M Demo.world (list Z) :=
  Account.declare Demo.Signer_t Demo.book Demo.chain Demo.get_nonce pystr
    (list Z) read_file loads BUILD_DIRECTORY ABIS_DIRECTORY sign_declare
    core_declare.

End DemoDeclare.

Definition predeployed : gmap pystr value :=
  {[ str "alias" := VStr (str "ALICE");
     str "address" := VInt 500;
     str "index" := VInt 0 ]}.

Lemma init_predeployed_witness :
  Demo.__init__ (VInt 16) Demo.goerli (Some predeployed) Demo.offline
  = (Ok Demo.alice, Demo.offline).
Proof.
  apply (Account.init_predeployed Demo.Signer_t Demo.Signer Demo.public_key
           Demo.book Demo.accounts_exists Demo.accounts_load
           Demo.accounts_current_index Demo.accounts_register Demo.chain
           Demo.core_deploy Demo.ABI_PATH Demo.ARTIFACTS Demo.offline
           (VInt 16) Demo.goerli predeployed);
    vm_compute; reflexivity.
Defined.

Lemma init_predeployed_without_alias_witness :
  Demo.__init__ (VInt 16) Demo.goerli (Some {[ str "address" := VInt 500 ]})
    Demo.offline
  = (Ok (Account.mk (Some 16) None None None None None),
     Account.logging_error Demo.book Demo.chain
       (Account.cannot_find (VInt 16)) Demo.offline).
Proof.
  apply (Account.init_predeployed_without_alias Demo.Signer_t Demo.Signer
           Demo.public_key Demo.book Demo.accounts_exists Demo.accounts_load
           Demo.accounts_current_index Demo.accounts_register Demo.chain
           Demo.core_deploy Demo.ABI_PATH Demo.ARTIFACTS Demo.offline
           (VInt 16) Demo.goerli {[ str "address" := VInt 500 ]}).
  vm_compute. reflexivity.
Defined.

Lemma init_predeployed_without_address_witness :
  Demo.__init__ (VInt 16) Demo.goerli
    (Some {[ str "alias" := VStr (str "ALICE") ]}) Demo.offline
  = (Err KeyError, Demo.offline).
Proof.
  apply (Account.init_predeployed_without_address Demo.Signer_t Demo.Signer
           Demo.public_key Demo.book Demo.accounts_exists Demo.accounts_load
           Demo.accounts_current_index Demo.accounts_register Demo.chain
           Demo.core_deploy Demo.ABI_PATH Demo.ARTIFACTS Demo.offline
           (VInt 16) Demo.goerli {[ str "alias" := VStr (str "ALICE") ]}
           (VStr (str "ALICE"))).
  - vm_compute. reflexivity.
  - left. vm_compute. reflexivity.
Defined.

(** The world that the first construction of ALICE's account leaves. *)
Definition registered : Demo.world :=
  Account.World Demo.book Demo.chain {[ str "ALICE" := str "0x10" ]} []
    [Demo.AccountRecord 33 (VInt 500) 0 (VStr (str "ALICE")) Demo.goerli]
    (Demo.Chain false
       [Demo.Deployment (str "account-0") (VInt 500) Demo.goerli] 501).

Lemma init_known_account_witness :
  Demo.__init__ (VStr (str "ALICE")) Demo.goerli None registered
  = (Ok Demo.alice, registered).
Proof.
  apply (Account.init_known_account Demo.Signer_t Demo.Signer Demo.public_key
           Demo.book Demo.accounts_exists Demo.accounts_load
           Demo.accounts_current_index Demo.accounts_register Demo.chain
           Demo.core_deploy Demo.ABI_PATH Demo.ARTIFACTS registered
           (str "ALICE") (str "0x10") Demo.goerli 16
           (SignerData (VInt 500) (VInt 0)) []);
    vm_compute; reflexivity.
Defined.

Lemma init_first_use_witness :
  Demo.__init__ (VStr (str "ALICE")) Demo.goerli None Demo.offline
  = (Err Demo.unreachable, Demo.offline).
Proof.
  apply (Account.init_first_use Demo.Signer_t Demo.Signer Demo.public_key
           Demo.book Demo.accounts_exists Demo.accounts_load
           Demo.accounts_current_index Demo.accounts_register Demo.chain
           Demo.core_deploy Demo.ABI_PATH Demo.ARTIFACTS Demo.offline
           (str "ALICE") (str "0x10") Demo.goerli 16);
    vm_compute; reflexivity.
Defined.

Lemma init_bad_key_raises_witness :
  Demo.__init__ (VStr (str "KEY")) Demo.goerli None
    (Account.World Demo.book Demo.chain {[ str "KEY" := str "secret" ]} [] []
       (Demo.Chain true [] 500))
  = (Err ValueError,
     Account.World Demo.book Demo.chain {[ str "KEY" := str "secret" ]} [] []
       (Demo.Chain true [] 500)).
Proof.
  apply (Account.init_bad_key_raises Demo.Signer_t Demo.Signer Demo.public_key
           Demo.book Demo.accounts_exists Demo.accounts_load
           Demo.accounts_current_index Demo.accounts_register Demo.chain
           Demo.core_deploy Demo.ABI_PATH Demo.ARTIFACTS _ (str "KEY")
           Demo.goerli (str "secret"));
    vm_compute; reflexivity.
Defined.

Lemma send_calldata_error_witness :
  Demo.send Demo.alice (VInt 7) (str "transfer")
    [VInt 1; VStr (str "ten")] None None Demo.offline
  = (Err ValueError, Demo.offline).
Proof.
  apply (Account.send_calldata_error Demo.Signer_t Demo.sign_transaction
           Demo.book Demo.chain (list Z) Demo.is_alias Demo.deployments_load
           Demo.get_nonce Demo.call_or_invoke Demo.offline Demo.alice
           Demo.goerli (VInt 7) (str "transfer") [VInt 1; VStr (str "ten")]
           None None ValueError).
  - reflexivity.
  - right. exists 7. reflexivity.
  - reflexivity.
Defined.

Lemma deploy_contract_signs_one_call_witness :
  Demo.deploy_contract Demo.alice (VInt 7) (VStr (str "8")) (VInt 1)
    [VInt 3; VStr (str "4")] None None Demo.online
  = (Ok [1; 0x041a78e741e5af2fec34b695679bc6891742439f7afb8484ecd7766661ad02bf;
         6; 7; 8; 1; 2; 3; 4], Demo.online).
Proof.
  apply (Account.deploy_contract_signs_one_call Demo.Signer_t
           Demo.sign_transaction Demo.book Demo.chain (list Z) Demo.is_alias
           Demo.deployments_load Demo.get_nonce Demo.call_or_invoke
           Demo.UNIVERSAL_DEPLOYER_ADDRESS Demo.online Demo.alice 16
           (VInt 500) Demo.goerli (VInt 7) (VStr (str "8")) (VInt 1)
           [VInt 3; VStr (str "4")] 7 8 1
           0x041a78e741e5af2fec34b695679bc6891742439f7afb8484ecd7766661ad02bf
           [3; 4] None 0 (VInt 0));
    vm_compute; reflexivity.
Defined.

Lemma declare_without_artifact_witness :
  DemoDeclare.declare Demo.alice (str "Token") None None None None Demo.online
  = (Err DemoDeclare.missing, Demo.online).
Proof.
  apply (Account.declare_without_artifact Demo.Signer_t Demo.book Demo.chain
           Demo.get_nonce pystr (list Z) DemoDeclare.read_file
           DemoDeclare.loads DemoDeclare.BUILD_DIRECTORY
           DemoDeclare.ABIS_DIRECTORY DemoDeclare.sign_declare
           DemoDeclare.core_declare Demo.online Demo.alice (VInt 500)
           Demo.goerli (str "Token") None None None None 0 (VInt 0)
           DemoDeclare.missing);
    vm_compute; reflexivity.
Defined.

Lemma declare_signs_and_dispatches_witness :
  DemoDeclare.declare Demo.alice (str "Account") (Some (VStr (str "12")))
    (Some (VInt 3)) None None Demo.online
  = (Ok [16; 12], Demo.online).
Proof.
  apply (Account.declare_signs_and_dispatches Demo.Signer_t Demo.book
           Demo.chain Demo.get_nonce pystr (list Z) DemoDeclare.read_file
           DemoDeclare.loads DemoDeclare.BUILD_DIRECTORY
           DemoDeclare.ABIS_DIRECTORY DemoDeclare.sign_declare
           DemoDeclare.core_declare Demo.online Demo.alice 16 (VInt 500)
           Demo.goerli (str "Account") (Some (VStr (str "12")))
           (Some (VInt 3)) None None 12 (VInt 3) (str "{}") (str "{}"));
    vm_compute; reflexivity.
Defined.
